(** * BaseEcosystemTools: the DeFi integrator and the Base SDK

    A shallow embedding of [src/BaseSDK.ts] and [src/DeFiIntegrator.ts]:
    the payload encoders, the dispatching operations, the signer guard of
    the SDK and the portfolio analytics, with the fragment of the
    JavaScript runtime they rest on. *)

From Stdlib Require Import String Ascii List ZArith QArith Qabs Qround Bool Lia.
From Stdlib Require Import Permutation.
Import ListNotations.

Local Open Scope string_scope.
Local Open Scope Z_scope.

(** ** The JavaScript runtime used by the sources *)

Module JS.

(** A JavaScript [number]: an IEEE 754 double.  A finite double is carried
    by its exact rational value, and every operation below rounds its
    exact result to the nearest double, ties to even ([round_double]).
    [NaN] and the two infinities are values of their own; the sign of zero
    is not tracked. *)
Inductive number : Type :=
| NaN
| Infinity (negative : bool)
| Num (q : Q).

Definition ofZ (z : Z) : number := Num (inject_Z z).

(** *** Strings *)

(** [s.slice(n)] for [0 <= n]. *)
Fixpoint slice (n : nat) (s : string) : string :=
  match n, s with
  | O, _ => s
  | S _, EmptyString => EmptyString
  | S n', String _ s' => slice n' s'
  end.

(** [s.substr(start, len)]. *)
Definition substr (start len : nat) (s : string) : string :=
  substring start len s.

(** The filler of [padStart]: [n] characters read cyclically from [pad]. *)
Fixpoint filler (n : nat) (cur pad : string) : string :=
  match n with
  | O => EmptyString
  | S n' =>
      match cur with
      | String c r => String c (filler n' r pad)
      | EmptyString =>
          match pad with
          | String c r => String c (filler n' r pad)
          | EmptyString => EmptyString
          end
      end
  end.

(** [s.padStart(targetLength, padString)]: a string that already has the
    target length, or more, is returned unchanged. *)
Definition padStart (targetLength : nat) (padString : string) (s : string)
  : string :=
  if (targetLength <=? String.length s)%nat then s
  else filler (targetLength - String.length s) padString padString ++ s.

(** *** Digits *)

Definition digit_alphabet : string := "0123456789abcdefghijklmnopqrstuvwxyz".

Definition digit_char (d : Z) : ascii :=
  match String.get (Z.to_nat d) digit_alphabet with
  | Some c => c
  | None => "0"%char
  end.

Definition digit_value (c : ascii) : option Z :=
  let n := Z.of_nat (nat_of_ascii c) in
  if (48 <=? n) && (n <=? 57) then Some (n - 48)
  else if (97 <=? n) && (n <=? 122) then Some (n - 87)
  else if (65 <=? n) && (n <=? 90) then Some (n - 55)
  else None.

Fixpoint digits_loop (radix : Z) (fuel : nat) (z : Z) (acc : string)
  : string :=
  match fuel with
  | O => acc
  | S f =>
      let acc' := String (digit_char (z mod radix)) acc in
      if z / radix =? 0 then acc' else digits_loop radix f (z / radix) acc'
  end.

(** The digits of a non-negative integer, most significant first. *)
Definition integer_digits (radix : Z) (z : Z) : string :=
  digits_loop radix (S (Z.to_nat (Z.log2 z))) z EmptyString.

(** White space and line terminators within the first 256 code units. *)
Definition isWhiteSpace (c : ascii) : bool :=
  let n := nat_of_ascii c in
  ((9 <=? n) && (n <=? 13) || (n =? 32) || (n =? 160))%nat.

Fixpoint trimStart (s : string) : string :=
  match s with
  | String c r => if isWhiteSpace c then trimStart r else s
  | EmptyString => s
  end.

(** The longest prefix of digits valid in [radix], read as an integer;
    the count of digits read and the rest of the string come with it. *)
Fixpoint read_digits (radix : Z) (s : string) (acc : Z) (count : nat)
  : Z * nat * string :=
  match s with
  | String c r =>
      match digit_value c with
      | Some d =>
          if d <? radix then read_digits radix r (acc * radix + d) (S count)
          else (acc, count, s)
      | None => (acc, count, s)
      end
  | EmptyString => (acc, count, s)
  end.

(** *** Rounding to a double *)

(** [num / den] rounded to an integer, ties to even ([0 <= num],
    [0 < den]). *)
Definition round_half_even (num den : Z) : Z :=
  let q := num / den in
  let r := num mod den in
  if (den <? 2 * r) || ((den =? 2 * r) && Z.odd q) then q + 1 else q.

(** For [0 < a/b]: the [e] with [2^e <= a/b < 2^(e+1)]. *)
Definition binary_exponent (a b : Z) : Z :=
  let e0 := Z.log2 a - Z.log2 b in
  let above := if 0 <=? e0 then b * 2 ^ e0 <=? a else b <=? a * 2 ^ (- e0) in
  if above then e0 else e0 - 1.

(** [a/b > 0] rounded to 53 significant bits, or to a multiple of
    [2^-1074] in the subnormal range; [None] past the largest double. *)
Definition round_positive (a b : Z) : option Q :=
  let p := Z.max (binary_exponent a b - 52) (-1074) in
  if 0 <=? p then
    let v := round_half_even a (b * 2 ^ p) * 2 ^ p in
    if 2 ^ 1024 <=? v then None else Some (inject_Z v)
  else
    Some (Qred (Qmake (round_half_even (a * 2 ^ (- p)) b)
                      (Z.to_pos (2 ^ (- p))))).

Definition round_double (q : Q) : number :=
  let negative := Qnum q <? 0 in
  if Qnum q =? 0 then ofZ 0
  else
    match round_positive (Z.abs (Qnum q)) (Zpos (Qden q)) with
    | Some v => Num (if negative then Qopp v else v)
    | None => Infinity negative
    end.

(** *** [parseInt(string)] with the radix left undefined *)

Definition strip_sign (s : string) : bool * string :=
  match s with
  | String "-" r => (true, r)
  | String "+" r => (false, r)
  | _ => (false, s)
  end.

Definition strip_hex_prefix (s : string) : Z * string :=
  match s with
  | String "0" (String "x" r) => (16, r)
  | String "0" (String "X" r) => (16, r)
  | _ => (10, s)
  end.

Definition parseInt (s : string) : number :=
  let '(negative, s1) := strip_sign (trimStart s) in
  let '(radix, s2) := strip_hex_prefix s1 in
  let '(z, count, _) := read_digits radix s2 0 O in
  match count with
  | O => NaN
  | S _ => round_double (inject_Z (if negative then - z else z))
  end.

(** *** [Number.prototype.toString] *)

Definition sign_prefix (q : Q) : string :=
  if Qnum q <? 0 then "-" else EmptyString.

(** The digits of a fraction in [[0, 1)], up to [fuel] of them.  The
    expansion of a double in radix 16 is finite and shorter than the
    fuel given below. *)
Fixpoint fraction_digits (radix : Z) (fuel : nat) (f : Q) : string :=
  match fuel with
  | O => EmptyString
  | S fuel' =>
      let scaled := Qred (f * inject_Z radix) in
      let d := Qfloor scaled in
      let f' := Qred (scaled - inject_Z d) in
      String (digit_char d)
             (if Qeq_bool f' 0 then EmptyString
              else fraction_digits radix fuel' f')
  end.

(** [x.toString(radix)] for a radix other than 10.  An integer prints
    with its exact digits: beyond 2^53 ECMAScript leaves the low digits to
    the engine, and the exact ones are taken here. *)
Definition toString_radix (radix : Z) (x : number) : string :=
  match x with
  | NaN => "NaN"
  | Infinity false => "Infinity"
  | Infinity true => "-Infinity"
  | Num q =>
      let a := Qabs q in
      let whole := Qfloor a in
      let f := Qred (a - inject_Z whole) in
      sign_prefix q ++ integer_digits radix whole ++
      (if Qeq_bool f 0 then EmptyString
       else "." ++ fraction_digits radix 1100 f)
  end.

Fixpoint zeros (n : nat) : string :=
  match n with
  | O => EmptyString
  | S n' => String "0" (zeros n')
  end.

Fixpoint leading_zeros (fuel : nat) (a b m : Z) : Z :=
  match fuel with
  | O => m
  | S f => if b <=? a * 10 then m else leading_zeros f (a * 10) b (m + 1)
  end.

(** For [0 < a/b]: the [n] with [10^(n-1) <= a/b < 10^n]. *)
Definition decimal_exponent (a b : Z) : Z :=
  if b <=? a then Z.of_nat (String.length (integer_digits 10 (a / b)))
  else 1 - leading_zeros (S (Z.to_nat (Z.log2 b))) a b 1.

(** [s * 10^e] as a rational. *)
Definition scale10 (s : Z) (e : Z) : Q :=
  if 0 <=? e then inject_Z (s * 10 ^ e)
  else Qred (Qmake s (Z.to_pos (10 ^ (- e)))).

(** Does the decimal [s * 10^e] read back as the double [a/b]? *)
Definition reads_back (a b s e : Z) : bool :=
  match round_double (scale10 s e) with
  | Num v => Qeq_bool v (Qmake a (Z.to_pos b))
  | _ => false
  end.

(** The decimal of [k] digits, [k] counted up from the current one, that
    reads back as [a/b] and is the closest to it; with [n] the decimal
    exponent of [a/b], the candidates of [k] digits are the two
    neighbours of [a/b * 10^(k-n)]. *)
Fixpoint shortest_decimal (fuel : nat) (a b n k : Z) : Z * Z :=
  let e := n - k in
  let num := if 0 <=? e then a else a * 10 ^ (- e) in
  let den := if 0 <=? e then b * 10 ^ e else b in
  let lo := num / den in
  let r := num mod den in
  let hi := lo + 1 in
  let nearest := round_half_even num den in
  match fuel with
  | O => (nearest, e)
  | S fuel' =>
      if reads_back a b nearest e then (nearest, e)
      else if reads_back a b lo e then (lo, e)
      else if reads_back a b hi e then (hi, e)
      else shortest_decimal fuel' a b n (k + 1)
  end.

Fixpoint strip_trailing_zeros (fuel : nat) (s e : Z) : Z * Z :=
  match fuel with
  | O => (s, e)
  | S f => if (s mod 10 =? 0) && negb (s =? 0)
           then strip_trailing_zeros f (s / 10) (e + 1) else (s, e)
  end.

(** The digits [s] of a decimal and the position [n] of its point, laid
    out as ECMAScript does: plain digits for [-6 < n <= 21], an exponent
    otherwise. *)
Definition format_decimal (s n : Z) : string :=
  let ds := integer_digits 10 s in
  let k := Z.of_nat (String.length ds) in
  if (k <=? n) && (n <=? 21) then ds ++ zeros (Z.to_nat (n - k))
  else if (0 <? n) && (n <=? 21) then
    substring 0 (Z.to_nat n) ds ++ "." ++ slice (Z.to_nat n) ds
  else if (-6 <? n) && (n <=? 0) then "0." ++ zeros (Z.to_nat (- n)) ++ ds
  else
    let e := n - 1 in
    let es := (if e <? 0 then "-" else "+") ++ integer_digits 10 (Z.abs e) in
    if k =? 1 then ds ++ "e" ++ es
    else substring 0 1 ds ++ "." ++ slice 1 ds ++ "e" ++ es.

(** [x.toString()], radix 10: the shortest decimal that reads back as
    [x]. *)
Definition toString (x : number) : string :=
  match x with
  | NaN => "NaN"
  | Infinity false => "Infinity"
  | Infinity true => "-Infinity"
  | Num q =>
      if Qnum q =? 0 then "0"
      else
        let a := Z.abs (Qnum q) in
        let b := Zpos (Qden q) in
        let '(s0, e0) := shortest_decimal 16 a b (decimal_exponent a b) 1 in
        let '(s, e) := strip_trailing_zeros 17 s0 e0 in
        sign_prefix q ++
        format_decimal s (Z.of_nat (String.length (integer_digits 10 s)) + e)
  end.

(** *** [parseFloat(string)] *)

Definition read_exponent (s : string) : Z :=
  match s with
  | String c r =>
      if (Ascii.eqb c "e" || Ascii.eqb c "E")%bool then
        let '(negative, r') := strip_sign r in
        let '(e, count, _) := read_digits 10 r' 0 O in
        match count with
        | O => 0
        | S _ => if negative then - e else e
        end
      else 0
  | EmptyString => 0
  end.

Definition parseFloat (s : string) : number :=
  let '(negative, s1) := strip_sign (trimStart s) in
  if String.prefix "Infinity" s1 then Infinity negative
  else
    let '(whole, count1, s2) := read_digits 10 s1 0 O in
    let '(mantissa, count2, s3) :=
      match s2 with
      | String "." r => read_digits 10 r whole O
      | _ => (whole, O, s2)
      end in
    match (count1 + count2)%nat with
    | O => NaN
    | S _ =>
        round_double
          (scale10 (if negative then - mantissa else mantissa)
                   (read_exponent s3 - Z.of_nat count2))
    end.

(** *** Arithmetic and comparison *)

Definition is_zero (q : Q) : bool := Qnum q =? 0.

Definition negative_of (q : Q) : bool := Qnum q <? 0.

(** [x + y] *)
Definition add (x y : number) : number :=
  match x, y with
  | NaN, _ | _, NaN => NaN
  | Infinity a, Infinity b => if Bool.eqb a b then Infinity a else NaN
  | Infinity a, Num _ | Num _, Infinity a => Infinity a
  | Num p, Num q => round_double (p + q)
  end.

(** [x * y] *)
Definition mul (x y : number) : number :=
  match x, y with
  | NaN, _ | _, NaN => NaN
  | Infinity a, Infinity b => Infinity (xorb a b)
  | Infinity a, Num q | Num q, Infinity a =>
      if is_zero q then NaN else Infinity (xorb a (negative_of q))
  | Num p, Num q => round_double (p * q)
  end.

(** [x / y]: a zero divisor gives [NaN] under a zero dividend and an
    infinity otherwise. *)
Definition div (x y : number) : number :=
  match x, y with
  | NaN, _ | _, NaN => NaN
  | Infinity _, Infinity _ => NaN
  | Infinity a, Num q => Infinity (xorb a (negative_of q))
  | Num _, Infinity _ => ofZ 0
  | Num p, Num q =>
      if is_zero q then
        if is_zero p then NaN else Infinity (negative_of p)
      else round_double (p / q)
  end.

(** [x > y]: false as soon as one side is [NaN]. *)
Definition gt (x y : number) : bool :=
  match x, y with
  | NaN, _ | _, NaN => false
  | Infinity a, Infinity b => negb a && b
  | Infinity a, Num _ => negb a
  | Num _, Infinity b => b
  | Num p, Num q => negb (Qle_bool p q)
  end.

(** [Math.min(x, y)]: [NaN] as soon as one argument is. *)
Definition Math_min (x y : number) : number :=
  match x, y with
  | NaN, _ | _, NaN => NaN
  | _, _ => if gt x y then y else x
  end.

End JS.

(** ** Promises over an explicit world *)

(** [TransactionResult], as [docs/API.md] declares it. *)
Inductive TransactionStatus : Type := success | failed.

Record TransactionResult : Type := {
  hash : string;
  blockNumber : JS.number;
  gasUsed : string;
  status : TransactionStatus;
  timestamp : JS.number
}.

(** What a rejected promise carries.  [JsError m] is [new Error(m)] thrown
    by the code of this repository; [ProviderError d] is whatever the RPC
    provider, the signer or the transport behind them rejected with. *)
Inductive Thrown : Type :=
| JsError (message : string)
| ProviderError (detail : string).

(** A call that leaves the process. *)
Inductive NetworkCall : Type :=
| SendTransaction (to value data : string)
| GetBlockNumber.

(** The far side of the connection: it answers a call knowing the calls
    made before it. *)
Record Network : Type := {
  sendTransaction_outcome :
    list NetworkCall -> string -> string -> string ->
    Thrown + TransactionResult;
  getBlockNumber_outcome : list NetworkCall -> Thrown + JS.number
}.

(** Everything outside the arguments that a call can read or change: the
    network, the calls made so far (oldest first) and the source behind
    [Math.random()] with the count of draws taken from it. *)
Record World : Type := {
  network : Network;
  calls : list NetworkCall;
  random : nat -> Q;
  draws : nat
}.

Definition record_call (c : NetworkCall) (w : World) : World :=
  {| network := network w; calls := calls w ++ [c];
     random := random w; draws := draws w |}.

Definition Async (A : Type) : Type := World -> (Thrown + A) * World.

Definition resolve {A} (a : A) : Async A := fun w => (inr a, w).

Definition throw {A} (e : Thrown) : Async A := fun w => (inl e, w).

(** [await]: a rejection skips the continuation. *)
Definition await {A B} (p : Async A) (k : A -> Async B) : Async B :=
  fun w =>
    match p w with
    | (inr a, w') => k a w'
    | (inl e, w') => (inl e, w')
    end.

Declare Scope async_scope.
Delimit Scope async_scope with async.
Notation "x <- p ;; k" := (await p (fun x => k))
  (at level 61, p at next level, right associativity) : async_scope.
Local Open Scope async_scope.

(** [Math.random()] *)
Definition Math_random : Async JS.number :=
  fun w =>
    (inr (JS.Num (random w (draws w))),
     {| network := network w; calls := calls w;
        random := random w; draws := S (draws w) |}).

(** [Promise.all(ps)]: every promise has been started, in order, before
    the result settles; the result is the list of values, or the first
    rejection in the order of the list. *)
Fixpoint Promise_all {A} (ps : list (Async A)) : Async (list A) :=
  match ps with
  | [] => resolve []
  | p :: rest =>
      fun w =>
        match p w with
        | (inr a, w') =>
            match Promise_all rest w' with
            | (inr l, w'') => (inr (a :: l), w'')
            | (inl e, w'') => (inl e, w'')
            end
        | (inl e, w') => (inl e, snd (Promise_all rest w'))
        end
  end.

(** ** [BaseSDK.ts] *)

Record BaseConfig : Type := {
  rpcUrl : string;
  chainId : Z;
  explorerUrl : string;
  multicallAddress : string
}.

Record DeFiProtocol : Type := {
  name : string;
  address : string;
  type : string
}.

(** [ethers.Wallet] and [ethers.JsonRpcProvider] are handles: the key and
    the endpoint they were built from. *)
Record Wallet : Type := { privateKey : string }.

Record JsonRpcProvider : Type := { url : string }.

Record BaseSDK : Type := {
  provider : JsonRpcProvider;
  config : BaseConfig;
  signer : option Wallet
}.

(** [new ethers.Wallet(privateKey, provider)] belongs to ethers: it
    gives a wallet, or throws on a key it does not accept.  Which keys it
    accepts is for ethers to say, so the constructor of the SDK takes it
    as a parameter. *)
Definition WalletConstructor : Type :=
  string -> JsonRpcProvider -> Thrown + Wallet.

(** [new BaseSDK(config, privateKey?)]: [if (privateKey)] is false for a
    missing key and for the empty string, and the wallet is built in the
    other cases only; what the wallet constructor throws, the constructor
    of the SDK throws. *)
Definition new_BaseSDK (new_Wallet : WalletConstructor) (config : BaseConfig)
  (privateKey : option string) : Thrown + BaseSDK :=
  let provider := {| url := rpcUrl config |} in
  match privateKey with
  | Some (String c k) =>
      match new_Wallet (String c k) provider with
      | inr wallet =>
          inr {| provider := provider; config := config;
                 signer := Some wallet |}
      | inl e => inl e
      end
  | Some EmptyString | None =>
      inr {| provider := provider; config := config; signer := None |}
  end.

(** [getBlockNumber]: the provider's answer, or its rejection, as is. *)
Definition getBlockNumber (sdk : BaseSDK) : Async JS.number :=
  fun w => (getBlockNumber_outcome (network w) (calls w),
            record_call GetBlockNumber w).

(** [sendTransaction(to, value, data)] is called by the integrator and by
    the tests, and [src/BaseSDK.ts] does not define it.  It is taken as a
    parameter carried by the world: the call is recorded and the network
    decides its outcome, a [TransactionResult] or any thrown value. *)
Definition sendTransaction (sdk : BaseSDK) (to value data : string)
  : Async TransactionResult :=
  fun w => (sendTransaction_outcome (network w) (calls w) to value data,
            record_call (SendTransaction to value data) w).

(** The error of the guard [if (!this.signer) throw new Error(...)]. *)
Definition NoSignerError : Thrown :=
  JsError "Signer required for transactions".

Record SwapTokensParams : Type := {
  swap_tokenIn : string;
  swap_tokenOut : string;
  swap_amountIn : string;
  slippage : JS.number;
  swap_deadline : option JS.number
}.

Record SwapTokensResult : Type := {
  swap_txHash : string;
  amountOut : string;
  swap_gasUsed : Z
}.

Record AddLiquidityParams : Type := {
  add_token0 : string;
  add_token1 : string;
  amount0 : string;
  amount1 : string;
  add_fee : JS.number
}.

Record AddLiquidityResult : Type := {
  add_txHash : string;
  lpTokens : string;
  add_gasUsed : Z
}.

Record BridgeParams : Type := {
  amount : string;
  token : string;
  fromChain : JS.number
}.

Record BridgeResult : Type := {
  bridge_txHash : string;
  bridgeId : string;
  estimatedTime : Z
}.

Module SDK.

(** [swapTokens]: building the router contract on the signer sends
    nothing. *)
Definition swapTokens (sdk : BaseSDK) (params : SwapTokensParams)
  : Async SwapTokensResult :=
  match signer sdk with
  | None => throw NoSignerError
  | Some _ =>
      resolve {| swap_txHash := "0x..."; amountOut := "0";
                 swap_gasUsed := 150000 |}
  end.

Definition addLiquidity (sdk : BaseSDK) (params : AddLiquidityParams)
  : Async AddLiquidityResult :=
  match signer sdk with
  | None => throw NoSignerError
  | Some _ =>
      resolve {| add_txHash := "0x..."; lpTokens := "0";
                 add_gasUsed := 200000 |}
  end.

Definition bridgeToBase (sdk : BaseSDK) (params : BridgeParams)
  : Async BridgeResult :=
  match signer sdk with
  | None => throw NoSignerError
  | Some _ =>
      resolve {| bridge_txHash := "0x..."; bridgeId := "0x...";
                 estimatedTime := 600 |}
  end.

End SDK.

(** [createBaseSDK(privateKey?)] *)
Definition createBaseSDK (new_Wallet : WalletConstructor)
  (privateKey : option string) : Thrown + BaseSDK :=
  new_BaseSDK new_Wallet
    {| rpcUrl := "https://mainnet.base.org"; chainId := 8453;
       explorerUrl := "https://basescan.org";
       multicallAddress := "0xcA11bde05977b3631167028862bE2a173976CA11" |}
    privateKey.

Definition BASE_PROTOCOLS : list DeFiProtocol :=
  [ {| name := "Uniswap V3";
       address := "0x2626664c2603336E57B271c5C0b26F421741e481";
       type := "dex" |};
    {| name := "Aerodrome";
       address := "0xcF77a3Ba9A5CA399B7c97c74d54e5b1Beb874E43";
       type := "dex" |};
    {| name := "Compound V3";
       address := "0x9c4ec768c28520B50860ea7a15bd7213a9fF58bf";
       type := "lending" |};
    {| name := "Base Bridge";
       address := "0x3154Cf16ccdb4C6d922629664174b904d80F2C35";
       type := "bridge" |} ].

(** ** [DeFiIntegrator.ts] *)

Record PoolInfo : Type := {
  pool_address : string;
  token0 : string;
  token1 : string;
  fee : JS.number;
  liquidity : string;
  sqrtPriceX96 : string
}.

Record SwapParams : Type := {
  tokenIn : string;
  tokenOut : string;
  amountIn : string;
  amountOutMinimum : string;
  sqrtPriceLimitX96 : option string;
  recipient : string;
  deadline : JS.number
}.

Record LiquidityParams : Type := {
  lp_token0 : string;
  lp_token1 : string;
  lp_fee : JS.number;
  tickLower : JS.number;
  tickUpper : JS.number;
  amount0Desired : string;
  amount1Desired : string;
  amount0Min : string;
  amount1Min : string;
  lp_recipient : string;
  lp_deadline : JS.number
}.

(** An element of the [routes] array of the Aerodrome calls. *)
Record Route : Type := {
  route_from : string;
  route_to : string;
  stable : bool;
  factory : string
}.

Record BreakdownEntry : Type := {
  protocol : string;
  value : string
}.


Record DeFiIntegrator : Type := {
  sdk : BaseSDK;
  uniswapV3Router : string;
  aerodromeRouter : string;
  compoundComet : string
}.

(** [new DeFiIntegrator(sdk)] *)
Definition createDeFiIntegrator (sdk : BaseSDK) : DeFiIntegrator :=
  {| sdk := sdk;
     uniswapV3Router := "0x2626664c2603336E57B271c5C0b26F421741e481";
     aerodromeRouter := "0xcF77a3Ba9A5CA399B7c97c74d54e5b1Beb874E43";
     compoundComet := "0x9c4ec768c28520B50860ea7a15bd7213a9fF58bf" |}.

(** [x.padStart(64, '0')] *)
Definition word (s : string) : string := JS.padStart 64 "0" s.

(** [parseInt(s).toString(16)] *)
Definition hex_of_amount (s : string) : string :=
  JS.toString_radix 16 (JS.parseInt s).

(** *** The payload encoders *)

Definition encodeSwapData (params : SwapParams) : string :=
  "0x414bf389" ++
  word (JS.slice 2 (tokenIn params)) ++
  word (JS.slice 2 (tokenOut params)) ++
  word (hex_of_amount (amountIn params)).

Definition encodeAerodromeSwap (amountIn amountOutMin : string)
  (routes : list Route) (to : string) (deadline : JS.number) : string :=
  "0x38ed1739" ++
  word (hex_of_amount amountIn) ++
  word (hex_of_amount amountOutMin).

Definition encodeLiquidityData (params : LiquidityParams) : string :=
  "0x219f5d17" ++
  word (JS.slice 2 (lp_token0 params)) ++
  word (JS.slice 2 (lp_token1 params)) ++
  word (JS.toString_radix 16 (lp_fee params)).

Definition encodeRemoveLiquidityData (tokenId : JS.number)
  (liquidity amount0Min amount1Min : string) (deadline : JS.number)
  : string :=
  "0x0c49ccbe" ++
  word (JS.toString_radix 16 tokenId) ++
  word (hex_of_amount liquidity).

Definition encodeSupplyData (asset amount : string) : string :=
  "0xa0712d68" ++
  word (JS.slice 2 asset) ++
  word (hex_of_amount amount).

Definition encodeBorrowData (asset amount : string) : string :=
  "0xc5ebeaec" ++
  word (JS.slice 2 asset) ++
  word (hex_of_amount amount).

Definition encodeStakeData (pool amount : string) : string :=
  "0xa694fc3a" ++
  word (hex_of_amount amount).

Definition encodeClaimData : string := "0x3d18b912".

(** *** The operations *)

Section Operations.

Variable this : DeFiIntegrator.

(** [getPoolInfo]: the address is drawn from [Math.random()], the three
    arguments are copied into the record. *)
Definition getPoolInfo (token0 token1 : string) (fee : JS.number)
  : Async PoolInfo :=
  r <- Math_random ;;
  resolve {| pool_address := "0x" ++ JS.substr 2 40 (JS.toString_radix 16 r);
             token0 := token0;
             token1 := token1;
             fee := fee;
             liquidity := "1000000000000000000";
             sqrtPriceX96 := "79228162514264337593543950336" |}.

Definition swapExactInputSingle (params : SwapParams) : Async string :=
  let swapData := encodeSwapData params in
  result <- sendTransaction (sdk this) (uniswapV3Router this) "0" swapData ;;
  resolve (hash result).

Definition getAerodromeRoutes (tokenA tokenB : string) : Async (list Route) :=
  resolve [ {| route_from := tokenA; route_to := tokenB; stable := false;
               factory := "0x420DD381b31aEf6683db6B902084cB0FFECe40Da" |} ].

Definition swapOnAerodrome (amountIn amountOutMin : string)
  (routes : list Route) (to : string) (deadline : JS.number)
  : Async string :=
  let swapData := encodeAerodromeSwap amountIn amountOutMin routes to deadline in
  result <- sendTransaction (sdk this) (aerodromeRouter this) "0" swapData ;;
  resolve (hash result).

Definition addLiquidity (params : LiquidityParams) : Async string :=
  let liquidityData := encodeLiquidityData params in
  result <- sendTransaction (sdk this) (uniswapV3Router this) "0"
                            liquidityData ;;
  resolve (hash result).

Definition removeLiquidity (tokenId : JS.number)
  (liquidity amount0Min amount1Min : string) (deadline : JS.number)
  : Async string :=
  let removeData :=
    encodeRemoveLiquidityData tokenId liquidity amount0Min amount1Min
                              deadline in
  result <- sendTransaction (sdk this) (uniswapV3Router this) "0"
                            removeData ;;
  resolve (hash result).

Definition supplyToCompound (asset amount : string) : Async string :=
  let supplyData := encodeSupplyData asset amount in
  result <- sendTransaction (sdk this) (compoundComet this) "0" supplyData ;;
  resolve (hash result).

Definition borrowFromCompound (asset amount : string) : Async string :=
  let borrowData := encodeBorrowData asset amount in
  result <- sendTransaction (sdk this) (compoundComet this) "0" borrowData ;;
  resolve (hash result).

Definition stakeLPTokens (pool amount : string) : Async string :=
  let stakeData := encodeStakeData pool amount in
  result <- sendTransaction (sdk this) pool "0" stakeData ;;
  resolve (hash result).

Definition claimRewards (pool : string) : Async string :=
  let claimData := encodeClaimData in
  result <- sendTransaction (sdk this) pool "0" claimData ;;
  resolve (hash result).


End Operations.

(** *** Portfolio management and risk assessment *)

Record BalanceEntry : Type := {
  balance_protocol : string;
  balance_value : string;
  percentage : JS.number
}.

Record PortfolioBalance : Type := {
  balance_totalValue : string;
  balance_breakdown : list BalanceEntry
}.

Section PortfolioBalance.

(** [getProtocolBalance(user, protocol)] is called below and defined
    nowhere in the sources: it is a parameter. *)
Variable getProtocolBalance : string -> string -> Async string.

(** The callback mapped over [protocols]. *)
Definition balance_of (user protocol : string) : Async BreakdownEntry :=
  balance <- getProtocolBalance user protocol ;;
  resolve {| protocol := protocol; value := balance |}.

Definition getPortfolioBalance (user : string) (protocols : list string)
  : Async PortfolioBalance :=
  balances <- Promise_all (map (balance_of user) protocols) ;;
  let totalValue :=
    JS.toString
      (fold_left (fun sum b => JS.add sum (JS.parseFloat (value b)))
                 balances (JS.ofZ 0)) in
  let breakdown :=
    map (fun b =>
           {| balance_protocol := protocol b;
              balance_value := value b;
              percentage :=
                JS.mul (JS.div (JS.parseFloat (value b))
                               (JS.parseFloat totalValue))
                       (JS.ofZ 100) |})
        balances in
  resolve {| balance_totalValue := totalValue;
             balance_breakdown := breakdown |}.

End PortfolioBalance.

(** An element of the [positions] array of [calculateRiskScore]. *)
Record Position : Type := {
  position_protocol : string;
  apr : JS.number
}.

(** The points of the APR of a position: [> 20], [> 10], otherwise. *)
Definition apr_points (apr : JS.number) : Z :=
  if JS.gt apr (JS.ofZ 20) then 3
  else if JS.gt apr (JS.ofZ 10) then 2
  else 1.

(** The points of the protocol of a position, compared by name. *)
Definition protocol_points (protocol : string) : Z :=
  if (protocol =? "Compound V3")%string then 1
  else if (protocol =? "Uniswap V3")%string then 2
  else 3.

(** What one round of the [forEach] adds to [riskScore]. *)
Definition position_points (position : Position) : Z :=
  apr_points (apr position) + protocol_points (position_protocol position).

(** [calculateRiskScore]: the accumulator holds small integers only, which
    a double holds exactly, so it is an integer until the division. *)
Definition calculateRiskScore (positions : list Position) : JS.number :=
  let riskScore :=
    fold_left (fun riskScore position => riskScore + position_points position)
              positions 0 in
  JS.Math_min
    (JS.div (JS.ofZ riskScore) (JS.ofZ (Z.of_nat (List.length positions))))
    (JS.ofZ 10).

(** ** The specification's wording, for comparison *)

Module Spec.

Inductive ProtocolClass : Type := lending | exchange | other.

(** The class of a protocol is the [type] of its registry entry. *)
Definition protocol_class (protocol : string) : ProtocolClass :=
  match find (fun d => (name d =? protocol)%string) BASE_PROTOCOLS with
  | Some d =>
      if (type d =? "lending")%string then lending
      else if (type d =? "dex")%string then exchange
      else other
  | None => other
  end.

(** APR below 10: 1 point; 10 to 20: 2 points; above 20: 3 points. *)
Definition apr_tier (apr : JS.number) : Z :=
  if JS.gt (JS.ofZ 10) apr then 1
  else if JS.gt apr (JS.ofZ 20) then 3
  else 2.

Definition class_points (c : ProtocolClass) : Z :=
  match c with lending => 1 | exchange => 2 | other => 3 end.

Definition contribution (position : Position) : Z :=
  apr_tier (apr position) +
  class_points (protocol_class (position_protocol position)).

(** The mean contribution per position, capped at 10; 0 on no position. *)
Definition riskScore (positions : list Position) : JS.number :=
  match positions with
  | [] => JS.ofZ 0
  | _ =>
      JS.Math_min
        (JS.div (JS.ofZ (fold_right Z.add 0 (map contribution positions)))
                (JS.ofZ (Z.of_nat (List.length positions))))
        (JS.ofZ 10)
  end.

(** A numeric field that parses as a non-negative integer: decimal digits,
    and at least one. *)
Definition non_negative_integer (s : string) : bool :=
  match s with
  | EmptyString => false
  | _ =>
      forallb (fun c => let n := nat_of_ascii c in
                        (48 <=? n)%nat && (n <=? 57)%nat)
              (list_ascii_of_string s)
  end.

End Spec.

(** The wording of the invariant of a snapshot: [totalValue] equals the
    sum of the values of the entries, each string standing for the number
    it writes. *)
Module Exact.




End Exact.

(** ** Worlds to run the operations in *)

(** The receipt the test suite's wallet mock answers with. *)
Definition mined_receipt : TransactionResult :=
  {| hash := "0x1234567890abcdef";
     blockNumber := JS.ofZ 12345;
     gasUsed := "150000";
     status := success;
     timestamp := JS.ofZ 0 |}.

(** A network that confirms everything. *)
Definition healthy_network : Network :=
  {| sendTransaction_outcome := fun _ _ _ _ => inr mined_receipt;
     getBlockNumber_outcome := fun _ => inr (JS.ofZ 12345) |}.

(** A network whose transport rejects every call, as the provider mock of
    the test suite does. *)
Definition unreachable_network : Network :=
  {| sendTransaction_outcome :=
       fun _ _ _ _ => inl (ProviderError "Network error");
     getBlockNumber_outcome := fun _ => inl (ProviderError "Network error") |}.

(** The wallet constructor of the test suite's mock of ethers: it takes
    any key. *)
Definition mock_Wallet : WalletConstructor :=
  fun key _ => inr {| privateKey := key |}.

(** A wallet constructor that takes a key of 32 bytes written in
    hexadecimal behind ["0x"], and throws on any other. *)
Definition strict_Wallet : WalletConstructor :=
  fun key _ =>
    match key with
    | String "0" (String "x" body) =>
        if (String.length body =? 64)%nat
           && forallb (fun c => match JS.digit_value c with
                                | Some d => d <? 16
                                | None => false
                                end)
                      (list_ascii_of_string body)
        then inr {| privateKey := key |}
        else inl (ProviderError "invalid private key")
    | _ => inl (ProviderError "invalid private key")
    end.

(** What [createBaseSDK()] builds: the SDK of the main network, with no
    signer. *)
Definition keyless_sdk : BaseSDK :=
  {| provider := {| url := "https://mainnet.base.org" |};
     config :=
       {| rpcUrl := "https://mainnet.base.org"; chainId := 8453;
          explorerUrl := "https://basescan.org";
          multicallAddress := "0xcA11bde05977b3631167028862bE2a173976CA11" |};
     signer := None |}.

(** What [createBaseSDK(key)] builds on the key of the test suite, and an
    integrator on it. *)
Definition signing_sdk : BaseSDK :=
  {| provider := provider keyless_sdk;
     config := config keyless_sdk;
     signer :=
       Some {| privateKey :=
                 "0x1111111111111111111111111111111111111111111111111111111111111111"
            |} |}.

Definition integrator : DeFiIntegrator := createDeFiIntegrator signing_sdk.

(** A world with no call made yet. *)
Definition fresh_world (n : Network) : World :=
  {| network := n; calls := []; random := fun _ => 1 # 2; draws := O |}.

(** The payload of the latest call. *)
Definition last_payload (w : World) : option string :=
  match last (calls w) GetBlockNumber with
  | SendTransaction _ _ data => Some data
  | GetBlockNumber => None
  end.

(** What [sendTransaction] answers in [w] to a call of value ['0']. *)
Definition answer (w : World) (to data : string)
  : Thrown + TransactionResult :=
  sendTransaction_outcome (network w) (calls w) to "0" data.

(** The promise of an operation settles as the promise of its
    [sendTransaction] did, a result being replaced by its hash. *)
Definition settle (o : Thrown + TransactionResult) : Thrown + string :=
  match o with
  | inr result => inr (hash result)
  | inl e => inl e
  end.

Definition sample_swap : SwapParams :=
  {| tokenIn := "0xA0b86a33E6417c8f2c8B758B2d7D2E4C2F2e2e2e";
     tokenOut := "0x833589fCD6eDb6E08f4c7C32D4f71b54bdA02913";
     amountIn := "1000000000000000000";
     amountOutMinimum := "990000000";
     sqrtPriceLimitX96 := None;
     recipient := "0x1234567890123456789012345678901234567890";
     deadline := JS.ofZ 1893456000 |}.

(** A swap whose amount is no number and whose deadline is the epoch. *)
Definition malformed_swap : SwapParams :=
  {| tokenIn := "0xA0b86a33E6417c8f2c8B758B2d7D2E4C2F2e2e2e";
     tokenOut := "0x833589fCD6eDb6E08f4c7C32D4f71b54bdA02913";
     amountIn := "abc";
     amountOutMinimum := "990000000";
     sqrtPriceLimitX96 := None;
     recipient := "0x1234567890123456789012345678901234567890";
     deadline := JS.ofZ 0 |}.

(** A balance source that reports nothing held anywhere. *)
Definition empty_handed : string -> string -> Async string :=
  fun _ _ => resolve "0".



Definition sample_swapTokens : SwapTokensParams :=
  {| swap_tokenIn := "0xA0b86a33E6417c8f2c8B758B2d7D2E4C2F2e2e2e";
     swap_tokenOut := "0x833589fCD6eDb6E08f4c7C32D4f71b54bdA02913";
     swap_amountIn := "1000000000000000000";
     slippage := JS.parseFloat "0.5";
     swap_deadline := None |}.

Definition uniswap_at_25 : Position :=
  {| position_protocol := "Uniswap V3"; apr := JS.ofZ 25 |}.

(** An exchange of the registry other than Uniswap V3, at a low APR. *)
Definition aerodrome_at_5 : Position :=
  {| position_protocol := "Aerodrome"; apr := JS.ofZ 5 |}.

(** The lending protocol, at an APR of exactly 10. *)
Definition compound_at_10 : Position :=
  {| position_protocol := "Compound V3"; apr := JS.ofZ 10 |}.

(** ** Snapshots and totals *)

(** The sum of the [value] strings of a breakdown, read as numbers and
    added from the left, starting from 0. *)
Definition sum_of_values (values : list string) : JS.number :=
  fold_left (fun sum v => JS.add sum (JS.parseFloat v)) values (JS.ofZ 0).

(** The points of all the positions together. *)
Definition total_points (positions : list Position) : Z :=
  fold_right Z.add 0 (map position_points positions).

(** ** The rest of the sources *)

(** *** More of the JavaScript runtime *)

Module JSText.

(** [s.slice(0, n)] *)
Definition slice_to (n : nat) (s : string) : string := substring 0 n s.

(** [s.slice(-n)]: the last [n] characters, or all of [s] when it is
    shorter. *)
Definition slice_last (n : nat) (s : string) : string :=
  JS.slice (String.length s - n) s.

Definition upper_char (c : ascii) : ascii :=
  let n := nat_of_ascii c in
  if ((97 <=? n) && (n <=? 122))%nat then ascii_of_nat (n - 32) else c.

Definition lower_char (c : ascii) : ascii :=
  let n := nat_of_ascii c in
  if ((65 <=? n) && (n <=? 90))%nat then ascii_of_nat (n + 32) else c.

Fixpoint map_chars (f : ascii -> ascii) (s : string) : string :=
  match s with
  | EmptyString => EmptyString
  | String c r => String (f c) (map_chars f r)
  end.

(** [s.toUpperCase()] and [s.toLowerCase()] on the letters [a-z] and
    [A-Z]; the other code units are left as they are. *)
Definition toUpperCase (s : string) : string := map_chars upper_char s.

Definition toLowerCase (s : string) : string := map_chars lower_char s.

(** The class [[a-fA-F0-9]]. *)
Definition isHexDigit (c : ascii) : bool :=
  let n := nat_of_ascii c in
  ((48 <=? n) && (n <=? 57) || (97 <=? n) && (n <=? 102)
   || (65 <=? n) && (n <=? 70))%nat.

Fixpoint all_chars (f : ascii -> bool) (s : string) : bool :=
  match s with
  | EmptyString => true
  | String c r => f c && all_chars f r
  end.

(** The class [[0-9]]. *)
Definition isDecimalDigit (c : ascii) : bool :=
  let n := nat_of_ascii c in ((48 <=? n) && (n <=? 57))%nat.

(** A string at which the decimal digits of a number end: the empty
    string, or one that starts with neither a digit nor an [x]. *)
Definition ends_digits (t : string) : bool :=
  match t with
  | EmptyString => true
  | String c _ =>
      negb (isDecimalDigit c) && negb (Ascii.eqb c "x")
      && negb (Ascii.eqb c "X")
  end.

End JSText.

(** *** [BaseSDK.ts]: the utilities *)

(** [formatAddress]: the first six characters, three dots, the last
    four. *)
Definition formatAddress (address : string) : string :=
  JSText.slice_to 6 address ++ "..." ++ JSText.slice_last 4 address.

(** [BASE_UTILITIES.isValidBaseAddress]: the pattern
    [/^0x[a-fA-F0-9]{40}$/]. *)
Definition isValidBaseAddress (address : string) : bool :=
  match address with
  | String "0" (String "x" body) =>
      (String.length body =? 40)%nat && JSText.all_chars JSText.isHexDigit body
  | _ => false
  end.

(** *** [DeFiIntegrator.ts]: the rebalancing hints *)

(** An element of [portfolio.breakdown] as [getRebalancingSuggestions]
    reads it.  A property the element does not have reads as [undefined],
    and [undefined > n] is false as [NaN > n] is: a missing property is
    carried as [NaN]. *)
Record Holding : Type := {
  holding_percentage : JS.number;
  holding_apr : JS.number
}.

(** An entry of [getPortfolioBalance] has a [percentage] and no [apr]. *)
Definition holding_of_balance (b : BalanceEntry) : Holding :=
  {| holding_percentage := percentage b; holding_apr := JS.NaN |}.

Definition diversify_hint : string :=
  "Consider diversifying - one protocol holds >50% of portfolio".

Definition high_apr_hint : string :=
  "High APR positions detected - monitor for sustainability".

Definition getRebalancingSuggestions (breakdown : list Holding)
  : list string :=
  let suggestions := [] in
  let suggestions :=
    if existsb (fun p => JS.gt (holding_percentage p) (JS.ofZ 50)) breakdown
    then (suggestions ++ [diversify_hint])%list
    else suggestions in
  let highRiskPositions :=
    filter (fun p => JS.gt (holding_apr p) (JS.ofZ 25)) breakdown in
  if (0 <? List.length highRiskPositions)%nat
  then (suggestions ++ [high_apr_hint])%list
  else suggestions.

(** *** The configuration module *)

Module Config.

Record Currency : Type := {
  currency_name : string;
  currency_symbol : string;
  currency_decimals : Z
}.

Record NetworkConfig : Type := {
  chainId : Z;
  name : string;
  rpcUrl : string;
  blockExplorer : string;
  nativeCurrency : Currency
}.

Record ProtocolConfig : Type := {
  protocol_name : string;
  address : string;
  abi : list string;
  version : string;
  category : string;
  tvl : string;
  apr : JS.number
}.

Record TokenConfig : Type := {
  symbol : string;
  token_name : string;
  token_address : string;
  decimals : Z;
  coingeckoId : string
}.

Definition ether : Currency :=
  {| currency_name := "Ethereum"; currency_symbol := "ETH";
     currency_decimals := 18 |}.

Definition BASE_MAINNET : NetworkConfig :=
  {| chainId := 8453; name := "Base";
     rpcUrl := "https://mainnet.base.org";
     blockExplorer := "https://basescan.org";
     nativeCurrency := ether |}.

Definition BASE_SEPOLIA : NetworkConfig :=
  {| chainId := 84532; name := "Base Sepolia";
     rpcUrl := "https://sepolia.base.org";
     blockExplorer := "https://sepolia.basescan.org";
     nativeCurrency := ether |}.

(** [PROTOCOLS], keys and values in the order of the object literal,
    which is the order of [Object.values]. *)
Definition PROTOCOLS : list (string * ProtocolConfig) :=
  [ ("UNISWAP_V3",
     {| protocol_name := "Uniswap V3";
        address := "0x2626664c2603336E57B271c5C0b26F421741e481";
        abi := []; version := "3.0.0"; category := "dex"; tvl := "500000000";
        apr := JS.parseFloat "12.5" |});
    ("COMPOUND_V3",
     {| protocol_name := "Compound V3";
        address := "0x9c4ec768c28520B50860ea7a15bd7213a9fF58bf";
        abi := []; version := "3.0.0"; category := "lending"; tvl := "300000000";
        apr := JS.parseFloat "8.2" |});
    ("AERODROME",
     {| protocol_name := "Aerodrome";
        address := "0x940181a94A37A2A52b90D688a193c1e0c0Ae46A1";
        abi := []; version := "1.0.0"; category := "dex"; tvl := "200000000";
        apr := JS.parseFloat "15.8" |});
    ("MOONWELL",
     {| protocol_name := "Moonwell";
        address := "0x628ff693426583D9a7FB391E54366292F509D457";
        abi := []; version := "2.0.0"; category := "lending"; tvl := "150000000";
        apr := JS.parseFloat "9.5" |}) ].

Definition TOKENS : list (string * TokenConfig) :=
  [ ("ETH",
     {| symbol := "ETH"; token_name := "Ethereum";
        token_address := "0x0000000000000000000000000000000000000000";
        decimals := 18; coingeckoId := "ethereum" |});
    ("USDC",
     {| symbol := "USDC"; token_name := "USD Coin";
        token_address := "0x833589fCD6eDb6E08f4c7C32D4f71b54bdA02913";
        decimals := 6; coingeckoId := "usd-coin" |});
    ("WETH",
     {| symbol := "WETH"; token_name := "Wrapped Ethereum";
        token_address := "0x4200000000000000000000000000000000000006";
        decimals := 18; coingeckoId := "weth" |});
    ("DAI",
     {| symbol := "DAI"; token_name := "Dai Stablecoin";
        token_address := "0x50c5725949A6F0c72E6C4a641F24049A917DB0Cb";
        decimals := 18; coingeckoId := "dai" |});
    ("CBETH",
     {| symbol := "cbETH"; token_name := "Coinbase Wrapped Staked ETH";
        token_address := "0x2Ae3F1Ec7F1F5012CFEab0185bfc7aa3cf0DEc22";
        decimals := 18; coingeckoId := "coinbase-wrapped-staked-eth" |}) ].

(** [getNetworkConfig]: [null] is [None]. *)
Definition getNetworkConfig (chainId : Z) : option NetworkConfig :=
  if chainId =? 8453 then Some BASE_MAINNET
  else if chainId =? 84532 then Some BASE_SEPOLIA
  else None.

(** [getProtocolByAddress]: the first value whose address is the given
    one, letter case apart. *)
Definition getProtocolByAddress (a : string) : option ProtocolConfig :=
  find (fun p => (JSText.toLowerCase (address p) =? JSText.toLowerCase a)%string)
       (map snd PROTOCOLS).

(** [TOKENS[key]]: the value of the own property [key].  The inherited
    properties of an object literal all have a lower-case letter in their
    name, and the only keys looked up are upper-cased ones. *)
Definition lookup_token (key : string) : option TokenConfig :=
  option_map snd (find (fun kv => (fst kv =? key)%string) TOKENS).

Definition getTokenBySymbol (symbol : string) : option TokenConfig :=
  lookup_token (JSText.toUpperCase symbol).

End Config.

(** The first ten characters of a payload: ["0x"] and the four bytes of
    the function selector. *)
Definition selector_of (payload : string) : string := substring 0 10 payload.

(** The destination of the latest call. *)
Definition last_destination (w : World) : option string :=
  match last (calls w) GetBlockNumber with
  | SendTransaction to _ _ => Some to
  | GetBlockNumber => None
  end.

(** A balance source that answers from a table and touches nothing. *)
Definition lookup_of (table : string -> string -> Thrown + string)
  : string -> string -> Async string :=
  fun user protocol w => (table user protocol, w).

(** * Properties *)

(** ** How an operation runs *)

Lemma run_dispatch (sdk : BaseSDK) (to data : string) (w : World) :
  (result <- sendTransaction sdk to "0" data ;; resolve (hash result)) w
  = (settle (answer w to data), record_call (SendTransaction to "0" data) w).
Proof.
  unfold await, sendTransaction, answer, settle, resolve.
  destruct (sendTransaction_outcome _ _ _ _ _); reflexivity.
Qed.

Lemma await_run {A B} (p : Async A) (k : A -> Async B) (w : World) :
  await p k w
  = match p w with
    | (inr a, w') => k a w'
    | (inl e, w') => (inl e, w')
    end.
Proof. reflexivity. Qed.

Lemma last_payload_record (to value data : string) (w : World) :
  last_payload (record_call (SendTransaction to value data) w) = Some data.
Proof.
  unfold last_payload, record_call; cbn [calls].
  rewrite last_last. reflexivity.
Qed.

Lemma calls_record (c : NetworkCall) (w : World) :
  calls (record_call c w) = (calls w ++ [c])%list.
Proof. reflexivity. Qed.

Ltac run_operation :=
  intros;
  repeat (match goal with
          | |- _ /\ _ => split
          end; intros);
  unfold swapExactInputSingle, swapOnAerodrome, addLiquidity,
    removeLiquidity, supplyToCompound, borrowFromCompound, stakeLPTokens,
    claimRewards;
  cbv zeta;
  rewrite ?run_dispatch; cbn [fst snd].

(** ** C1: what crosses the dispatcher boundary *)

(** C1, as stated, fails: with a transport that rejects, the swap rejects
    with the provider's own exception, which is neither a value derived
    from a [TransactionResult] nor an error raised by this library. *)
Lemma provider_rejection_escapes :
  fst (swapExactInputSingle integrator sample_swap
         (fresh_world unreachable_network))
  = inl (ProviderError "Network error").
Proof. reflexivity. Qed.

(** C1, amended: each of the eight operations settles exactly as its one
    [sendTransaction] call does.  It resolves to the [hash] of the result
    when that call resolves, and rejects with the very value that call
    rejected with, nothing caught and nothing wrapped. *)
Theorem operations_settle_as_sendTransaction (this : DeFiIntegrator)
  (w : World) :
  (forall params,
      fst (swapExactInputSingle this params w)
      = settle (answer w (uniswapV3Router this) (encodeSwapData params)))
  /\ (forall amountIn amountOutMin routes to deadline,
      fst (swapOnAerodrome this amountIn amountOutMin routes to deadline w)
      = settle (answer w (aerodromeRouter this)
                  (encodeAerodromeSwap amountIn amountOutMin routes to
                                       deadline)))
  /\ (forall params,
      fst (addLiquidity this params w)
      = settle (answer w (uniswapV3Router this) (encodeLiquidityData params)))
  /\ (forall tokenId liquidity amount0Min amount1Min deadline,
      fst (removeLiquidity this tokenId liquidity amount0Min amount1Min
                           deadline w)
      = settle (answer w (uniswapV3Router this)
                  (encodeRemoveLiquidityData tokenId liquidity amount0Min
                                             amount1Min deadline)))
  /\ (forall asset amount,
      fst (supplyToCompound this asset amount w)
      = settle (answer w (compoundComet this) (encodeSupplyData asset amount)))
  /\ (forall asset amount,
      fst (borrowFromCompound this asset amount w)
      = settle (answer w (compoundComet this) (encodeBorrowData asset amount)))
  /\ (forall pool amount,
      fst (stakeLPTokens this pool amount w)
      = settle (answer w pool (encodeStakeData pool amount)))
  /\ (forall pool,
      fst (claimRewards this pool w)
      = settle (answer w pool encodeClaimData)).
Proof. run_operation; reflexivity. Qed.

(** The reads of the SDK are built the same way: [getBlockNumber] hands
    back the provider's rejection as it came. *)
Lemma getBlockNumber_settles_as_provider (sdk : BaseSDK) (w : World) :
  fst (getBlockNumber sdk w) = getBlockNumber_outcome (network w) (calls w).
Proof. reflexivity. Qed.

(** ** C2: no validation before the call *)

(** C2, as stated, fails: the amount ["abc"] is no non-negative integer
    and the deadline is the epoch, yet the swap raises nothing; it sends
    a payload whose last word spells [NaN] and resolves to the hash. *)
Lemma malformed_swap_is_sent :
  Spec.non_negative_integer (amountIn malformed_swap) = false
  /\ fst (swapExactInputSingle integrator malformed_swap
            (fresh_world healthy_network))
     = inr "0x1234567890abcdef"
  /\ calls (snd (swapExactInputSingle integrator malformed_swap
                   (fresh_world healthy_network)))
     = [ SendTransaction "0x2626664c2603336E57B271c5C0b26F421741e481" "0"
           ("0x414bf389"
            ++ "000000000000000000000000A0b86a33E6417c8f2c8B758B2d7D2E4C2F2e2e2e"
            ++ "000000000000000000000000833589fCD6eDb6E08f4c7C32D4f71b54bdA02913"
            ++ "0000000000000000000000000000000000000000000000000000000000000NaN")
       ].
Proof. repeat split; vm_compute; reflexivity. Qed.

(** C2, amended: no operation checks a numeric field or a deadline.
    Whatever the arguments, the operation makes its [sendTransaction]
    call, with the payload its encoder builds from them, and makes no
    other call. *)
Theorem operations_always_send (this : DeFiIntegrator) (w : World) :
  (forall params,
      calls (snd (swapExactInputSingle this params w))
      = (calls w ++ [SendTransaction (uniswapV3Router this) "0"
                       (encodeSwapData params)])%list)
  /\ (forall amountIn amountOutMin routes to deadline,
      calls (snd (swapOnAerodrome this amountIn amountOutMin routes to
                                  deadline w))
      = (calls w ++ [SendTransaction (aerodromeRouter this) "0"
                       (encodeAerodromeSwap amountIn amountOutMin routes to
                                            deadline)])%list)
  /\ (forall params,
      calls (snd (addLiquidity this params w))
      = (calls w ++ [SendTransaction (uniswapV3Router this) "0"
                       (encodeLiquidityData params)])%list)
  /\ (forall tokenId liquidity amount0Min amount1Min deadline,
      calls (snd (removeLiquidity this tokenId liquidity amount0Min
                                  amount1Min deadline w))
      = (calls w ++ [SendTransaction (uniswapV3Router this) "0"
                       (encodeRemoveLiquidityData tokenId liquidity
                          amount0Min amount1Min deadline)])%list)
  /\ (forall asset amount,
      calls (snd (supplyToCompound this asset amount w))
      = (calls w ++ [SendTransaction (compoundComet this) "0"
                       (encodeSupplyData asset amount)])%list)
  /\ (forall asset amount,
      calls (snd (borrowFromCompound this asset amount w))
      = (calls w ++ [SendTransaction (compoundComet this) "0"
                       (encodeBorrowData asset amount)])%list)
  /\ (forall pool amount,
      calls (snd (stakeLPTokens this pool amount w))
      = (calls w ++ [SendTransaction pool "0"
                       (encodeStakeData pool amount)])%list)
  /\ (forall pool,
      calls (snd (claimRewards this pool w))
      = (calls w ++ [SendTransaction pool "0" encodeClaimData])%list).
Proof. run_operation; apply calls_record. Qed.

(** ** C3: the payload is a function of the arguments alone *)

(** C3: two calls of an operation with the same arguments hand the same
    payload to the network, the string its encoder computes from the
    arguments, whatever the integrator they run on and whatever the world
    they run in: calls made before, answers of the network, random draws. *)
Theorem payload_deterministic (this1 this2 : DeFiIntegrator)
  (w1 w2 : World) :
  (forall params,
      last_payload (snd (swapExactInputSingle this1 params w1))
      = Some (encodeSwapData params)
      /\ last_payload (snd (swapExactInputSingle this2 params w2))
         = Some (encodeSwapData params))
  /\ (forall amountIn amountOutMin routes to deadline,
      last_payload (snd (swapOnAerodrome this1 amountIn amountOutMin routes
                                         to deadline w1))
      = Some (encodeAerodromeSwap amountIn amountOutMin routes to deadline)
      /\ last_payload (snd (swapOnAerodrome this2 amountIn amountOutMin
                                            routes to deadline w2))
         = Some (encodeAerodromeSwap amountIn amountOutMin routes to
                                     deadline))
  /\ (forall params,
      last_payload (snd (addLiquidity this1 params w1))
      = Some (encodeLiquidityData params)
      /\ last_payload (snd (addLiquidity this2 params w2))
         = Some (encodeLiquidityData params))
  /\ (forall tokenId liquidity amount0Min amount1Min deadline,
      last_payload (snd (removeLiquidity this1 tokenId liquidity amount0Min
                                         amount1Min deadline w1))
      = Some (encodeRemoveLiquidityData tokenId liquidity amount0Min
                                        amount1Min deadline)
      /\ last_payload (snd (removeLiquidity this2 tokenId liquidity
                                            amount0Min amount1Min deadline
                                            w2))
         = Some (encodeRemoveLiquidityData tokenId liquidity amount0Min
                                           amount1Min deadline))
  /\ (forall asset amount,
      last_payload (snd (supplyToCompound this1 asset amount w1))
      = Some (encodeSupplyData asset amount)
      /\ last_payload (snd (supplyToCompound this2 asset amount w2))
         = Some (encodeSupplyData asset amount))
  /\ (forall asset amount,
      last_payload (snd (borrowFromCompound this1 asset amount w1))
      = Some (encodeBorrowData asset amount)
      /\ last_payload (snd (borrowFromCompound this2 asset amount w2))
         = Some (encodeBorrowData asset amount))
  /\ (forall pool amount,
      last_payload (snd (stakeLPTokens this1 pool amount w1))
      = Some (encodeStakeData pool amount)
      /\ last_payload (snd (stakeLPTokens this2 pool amount w2))
         = Some (encodeStakeData pool amount))
  /\ (forall pool,
      last_payload (snd (claimRewards this1 pool w1)) = Some encodeClaimData
      /\ last_payload (snd (claimRewards this2 pool w2))
         = Some encodeClaimData).
Proof. run_operation; apply last_payload_record. Qed.

(** ** C8: pool information *)

(** C8: [getPoolInfo] always resolves, and the record it resolves to
    carries the first argument as [token0], the second as [token1] and
    the third as [fee]. *)
Theorem getPoolInfo_echoes_arguments (tokenA tokenB : string)
  (feeTier : JS.number) (w : World) :
  exists info w',
    getPoolInfo tokenA tokenB feeTier w = (inr info, w')
    /\ token0 info = tokenA
    /\ token1 info = tokenB
    /\ fee info = feeTier.
Proof.
  unfold getPoolInfo, await, Math_random, resolve.
  eexists; eexists; repeat split.
Qed.

(** ** C10: the fields the swap payload reads *)

(** C10: two [SwapParams] with the same [tokenIn], [tokenOut] and
    [amountIn] encode to the same payload, however they differ in
    [amountOutMinimum], [sqrtPriceLimitX96], [recipient] and [deadline]. *)
Theorem encodeSwapData_reads_three_fields (p q : SwapParams) :
  tokenIn p = tokenIn q ->
  tokenOut p = tokenOut q ->
  amountIn p = amountIn q ->
  encodeSwapData p = encodeSwapData q.
Proof.
  intros Hin Hout Hamount. unfold encodeSwapData.
  rewrite Hin, Hout, Hamount. reflexivity.
Qed.

Lemma encodeSwapData_reads_three_fields_witness :
  encodeSwapData sample_swap
  = encodeSwapData
      {| tokenIn := tokenIn sample_swap;
         tokenOut := tokenOut sample_swap;
         amountIn := amountIn sample_swap;
         amountOutMinimum := "0";
         sqrtPriceLimitX96 := Some "79228162514264337593543950336";
         recipient := "0x0000000000000000000000000000000000000001";
         deadline := JS.ofZ 0 |}.
Proof.
  apply (encodeSwapData_reads_three_fields sample_swap); reflexivity.
Defined.

(** ** C4: the signer guard *)

Lemma createBaseSDK_fixtures (new_Wallet : WalletConstructor) :
  createBaseSDK new_Wallet None = inr keyless_sdk
  /\ createBaseSDK new_Wallet (Some EmptyString) = inr keyless_sdk
  /\ createBaseSDK mock_Wallet
       (Some "0x1111111111111111111111111111111111111111111111111111111111111111")
     = inr signing_sdk
  /\ createBaseSDK strict_Wallet
       (Some "0x1111111111111111111111111111111111111111111111111111111111111111")
     = inr signing_sdk.
Proof. repeat split; reflexivity. Qed.

(** C4: on an SDK that holds no signer, [swapTokens], [addLiquidity] and
    [bridgeToBase] reject with the signer error whatever their
    parameters, and leave the world as it was: no call has been made. *)
Theorem transactions_require_signer (sdk : BaseSDK) (w : World) :
  signer sdk = None ->
  (forall params, SDK.swapTokens sdk params w = (inl NoSignerError, w))
  /\ (forall params, SDK.addLiquidity sdk params w = (inl NoSignerError, w))
  /\ (forall params, SDK.bridgeToBase sdk params w = (inl NoSignerError, w)).
Proof.
  intros Hsigner.
  unfold SDK.swapTokens, SDK.addLiquidity, SDK.bridgeToBase.
  rewrite Hsigner. repeat split.
Qed.

Lemma transactions_require_signer_witness :
  createBaseSDK strict_Wallet None = inr keyless_sdk
  /\ signer keyless_sdk = None
  /\ SDK.swapTokens keyless_sdk sample_swapTokens
                    (fresh_world healthy_network)
     = (inl NoSignerError, fresh_world healthy_network).
Proof.
  split; [reflexivity|]. split.
  - reflexivity.
  - apply (transactions_require_signer keyless_sdk
             (fresh_world healthy_network)).
    reflexivity.
Defined.

(** ** C6 and C7: divisions by zero *)

(** C6: on no position at all the score is [0 / 0], which is [NaN] and
    stays [NaN] through [Math.min]: the empty list is not set apart. *)
Theorem calculateRiskScore_empty : calculateRiskScore [] = JS.NaN.
Proof. reflexivity. Qed.

(** C7: when the balances add up to zero the share of a position is
    [0 / 0 * 100], which is [NaN]; on no protocol at all the total is
    ["0"] and the breakdown is empty. *)
Theorem getPortfolioBalance_zero_total (user : string) (w : World) :
  getPortfolioBalance empty_handed user ["Uniswap V3"] w
  = (inr {| balance_totalValue := "0";
            balance_breakdown :=
              [ {| balance_protocol := "Uniswap V3";
                   balance_value := "0";
                   percentage := JS.NaN |} ] |}, w)
  /\ getPortfolioBalance empty_handed user [] w
     = (inr {| balance_totalValue := "0"; balance_breakdown := [] |}, w).
Proof. split; reflexivity. Qed.

(** ** C9: the total of a snapshot *)

Lemma fold_left_map {A B C} (f : A -> C -> A) (g : B -> C) (l : list B)
  (a : A) :
  fold_left (fun acc b => f acc (g b)) l a = fold_left f (map g l) a.
Proof.
  revert a. induction l as [|b l IH]; intros a; cbn; [reflexivity|].
  apply IH.
Qed.

Section Balances.

Variable getProtocolBalance : string -> string -> Async string.
Variable user : string.

Lemma getPortfolioBalance_run (protocols : list string) (w : World) :
  getPortfolioBalance getProtocolBalance user protocols w
  = match Promise_all (map (balance_of getProtocolBalance user) protocols)
                      w with
    | (inr balances, w') =>
        (inr {| balance_totalValue :=
                  JS.toString (sum_of_values (map value balances));
                balance_breakdown :=
                  map (fun b =>
                         {| balance_protocol := protocol b;
                            balance_value := value b;
                            percentage :=
                              JS.mul
                                (JS.div (JS.parseFloat (value b))
                                   (JS.parseFloat
                                      (JS.toString
                                         (sum_of_values (map value balances)))))
                                (JS.ofZ 100) |})
                      balances |}, w')
    | (inl e, w') => (inl e, w')
    end.
Proof.
  unfold getPortfolioBalance. rewrite await_run.
  destruct (Promise_all _ w) as [[e | balances] w']; [reflexivity|].
  unfold resolve, sum_of_values. rewrite <- fold_left_map. reflexivity.
Qed.

Hypothesis balances_resolve :
  forall protocol w, exists balance w',
      getProtocolBalance user protocol w = (inr balance, w').


End Balances.

(** ** C5: the risk score *)

(** C5, as stated, fails twice.  Aerodrome is an exchange of the registry
    and would add 2 points, for a score of 3; the code knows two names
    only and adds 3, for a score of 4.  An APR of exactly 10 lies in the
    10 to 20 tier and would add 2 points, for a score of 3; the code asks
    for more than 10 and adds 1, for a score of 2. *)
Lemma riskScore_differs_from_wording :
  calculateRiskScore [aerodrome_at_5] = JS.ofZ 4
  /\ Spec.riskScore [aerodrome_at_5] = JS.ofZ 3
  /\ calculateRiskScore [compound_at_10] = JS.ofZ 2
  /\ Spec.riskScore [compound_at_10] = JS.ofZ 3.
Proof. repeat split; vm_compute; reflexivity. Qed.

Lemma fold_left_points (positions : list Position) (start : Z) :
  fold_left (fun riskScore position => riskScore + position_points position)
            positions start
  = start + total_points positions.
Proof.
  revert start. induction positions as [|p ps IH]; intros start; cbn.
  - lia.
  - rewrite IH. unfold total_points. lia.
Qed.

Lemma apr_points_range (a : JS.number) : 1 <= apr_points a <= 3.
Proof.
  unfold apr_points.
  destruct (JS.gt a (JS.ofZ 20)); [lia|].
  destruct (JS.gt a (JS.ofZ 10)); lia.
Qed.

Lemma protocol_points_range (protocol : string) :
  1 <= protocol_points protocol <= 3.
Proof.
  unfold protocol_points.
  destruct (protocol =? "Compound V3")%string; [lia|].
  destruct (protocol =? "Uniswap V3")%string; lia.
Qed.

Lemma total_points_range (positions : list Position) :
  2 * Z.of_nat (List.length positions) <= total_points positions
  <= 6 * Z.of_nat (List.length positions).
Proof.
  induction positions as [|p ps IH].
  - cbn. lia.
  - unfold total_points in *. cbn [map fold_right List.length].
    unfold position_points at 1 3.
    pose proof (apr_points_range (apr p)).
    pose proof (protocol_points_range (position_protocol p)).
    lia.
Qed.

(** A rational whose binary exponent stays below 52 rounds to a finite
    double: only the overflow branch yields an infinity. *)
Lemma round_double_finite (q : Q) :
  Z.log2 (Z.abs (Qnum q)) - Z.log2 (Zpos (Qden q)) < 52 ->
  exists v, JS.round_double q = JS.Num v.
Proof.
  intros Hsmall. unfold JS.round_double.
  destruct (Qnum q =? 0); [eexists; reflexivity|].
  unfold JS.round_positive.
  set (e := JS.binary_exponent _ _).
  assert (He : e <= Z.log2 (Z.abs (Qnum q)) - Z.log2 (Zpos (Qden q))).
  { subst e. unfold JS.binary_exponent.
    match goal with |- context [if ?c then _ else _] => destruct c end; lia. }
  destruct (0 <=? Z.max (e - 52) (-1074)) eqn:Hp.
  - apply Z.leb_le in Hp. lia.
  - eexists; reflexivity.
Qed.

Lemma div_small_finite (s n : Z) :
  0 < n -> 0 <= s <= 6 * n ->
  exists v, JS.div (JS.ofZ s) (JS.ofZ n) = JS.Num v.
Proof.
  intros Hn Hs. unfold JS.div, JS.ofZ, JS.is_zero. cbn [Qnum inject_Z].
  destruct (n =? 0) eqn:Hz; [apply Z.eqb_eq in Hz; lia|].
  apply round_double_finite.
  destruct n as [|k|k]; try lia.
  cbn [Qdiv Qinv Qmult Qnum Qden inject_Z].
  rewrite Z.mul_1_r, Pos.mul_1_l.
  rewrite Z.abs_eq by lia.
  assert (Hlog : Z.log2 s <= Z.log2 (Zpos k * 2 ^ 3)).
  { apply Z.log2_le_mono. lia. }
  rewrite Z.log2_mul_pow2 in Hlog by lia. lia.
Qed.

(** C5, amended: on a non-empty list the score is the minimum of 10 and
    the mean of the points of the positions, a finite number.  A position
    scores 3 points for an APR above 20, 2 points for an APR above 10 and
    up to 20, and 1 point otherwise; to which are added 1 point when its
    protocol is named ["Compound V3"], 2 points when it is named
    ["Uniswap V3"] and 3 points under any other name.  One position at
    APR 25 on ["Uniswap V3"] scores 5. *)
Theorem calculateRiskScore_mean (positions : list Position) :
  positions <> [] ->
  calculateRiskScore positions
  = JS.Math_min
      (JS.div (JS.ofZ (total_points positions))
              (JS.ofZ (Z.of_nat (List.length positions))))
      (JS.ofZ 10)
  /\ (exists mean, calculateRiskScore positions = JS.Num mean)
  /\ (forall q, (inject_Z 20 < q)%Q -> apr_points (JS.Num q) = 3)
  /\ (forall q, (inject_Z 10 < q)%Q -> (q <= inject_Z 20)%Q ->
                apr_points (JS.Num q) = 2)
  /\ (forall q, (q <= inject_Z 10)%Q -> apr_points (JS.Num q) = 1)
  /\ protocol_points "Compound V3" = 1
  /\ protocol_points "Uniswap V3" = 2
  /\ (forall protocol,
         protocol <> "Compound V3" -> protocol <> "Uniswap V3" ->
         protocol_points protocol = 3)
  /\ calculateRiskScore [uniswap_at_25] = JS.ofZ 5.
Proof.
  intros Hne.
  assert (Hmean : calculateRiskScore positions
                  = JS.Math_min
                      (JS.div (JS.ofZ (total_points positions))
                              (JS.ofZ (Z.of_nat (List.length positions))))
                      (JS.ofZ 10)).
  { unfold calculateRiskScore. rewrite fold_left_points. reflexivity. }
  split; [exact Hmean|]. split.
  { rewrite Hmean.
    destruct (div_small_finite (total_points positions)
                (Z.of_nat (List.length positions))) as (v & Hv).
    - destruct positions; [contradiction|cbn [List.length]; lia].
    - pose proof (total_points_range positions). lia.
    - rewrite Hv. unfold JS.Math_min, JS.ofZ.
      destruct (JS.gt _ _); eexists; reflexivity. }
  assert (Hgt : forall q z, JS.gt (JS.Num q) (JS.ofZ z) = true
                            <-> (inject_Z z < q)%Q).
  { intros q z. unfold JS.gt, JS.ofZ. rewrite negb_true_iff.
    split.
    - intros Hle. apply Qnot_le_lt. intros H.
      apply Qle_bool_iff in H. congruence.
    - intros Hlt. destruct (Qle_bool q (inject_Z z)) eqn:Hb;
        [|reflexivity].
      apply Qle_bool_iff in Hb. exfalso. exact (Qlt_not_le _ _ Hlt Hb). }
  repeat split.
  - intros q H20. unfold apr_points.
    apply Hgt in H20. now rewrite H20.
  - intros q H10 H20. unfold apr_points.
    destruct (JS.gt (JS.Num q) (JS.ofZ 20)) eqn:Hb.
    + apply Hgt in Hb. exfalso. exact (Qlt_not_le _ _ Hb H20).
    + apply Hgt in H10. now rewrite H10.
  - intros q H10. unfold apr_points.
    destruct (JS.gt (JS.Num q) (JS.ofZ 20)) eqn:Hb.
    + apply Hgt in Hb. exfalso. apply (Qlt_not_le _ _ Hb).
      apply Qle_trans with (inject_Z 10); [exact H10|].
      unfold Qle; cbn; lia.
    + destruct (JS.gt (JS.Num q) (JS.ofZ 10)) eqn:Hc; [|reflexivity].
      apply Hgt in Hc. exfalso. exact (Qlt_not_le _ _ Hc H10).
  - intros protocol Hc Hu. unfold protocol_points.
    apply String.eqb_neq in Hc, Hu. now rewrite Hc, Hu.
Qed.

Lemma calculateRiskScore_mean_witness :
  calculateRiskScore [uniswap_at_25; aerodrome_at_5; compound_at_10]
  = JS.Math_min (JS.div (JS.ofZ 11) (JS.ofZ 3)) (JS.ofZ 10)
  /\ apr_points (JS.Num (25 # 1)) = 3
  /\ apr_points (JS.Num (20 # 1)) = 2
  /\ apr_points (JS.Num (10 # 1)) = 1
  /\ protocol_points "Aerodrome" = 3.
Proof.
  destruct (calculateRiskScore_mean
              [uniswap_at_25; aerodrome_at_5; compound_at_10])
    as (Hmean & _ & H3 & H2 & H1 & _ & _ & Hother & _).
  - discriminate.
  - split; [exact Hmean|]. split; [apply H3; reflexivity|].
    split; [apply H2; [reflexivity | discriminate]|].
    split; [apply H1; discriminate|].
    apply Hother; discriminate.
Defined.

(** * Beyond the claims *)

(** ** The range of the risk score *)

Lemma round_half_even_between (num den lo hi : Z) :
  0 < den -> lo * den <= num -> num <= hi * den ->
  lo <= JS.round_half_even num den <= hi.
Proof.
  intros Hden Hlo Hhi. unfold JS.round_half_even.
  pose proof (Z.div_mod num den ltac:(lia)) as Hdiv.
  pose proof (Z.mod_pos_bound num den Hden) as Hmod.
  destruct ((den <? 2 * (num mod den))
            || (den =? 2 * (num mod den)) && Z.odd (num / den)) eqn:Hup.
  - assert (0 < num mod den).
    { apply orb_true_iff in Hup as [Hup | Hup].
      - apply Z.ltb_lt in Hup. lia.
      - apply andb_true_iff in Hup as [Hup _]. apply Z.eqb_eq in Hup. lia. }
    split; nia.
  - split; nia.
Qed.

(** A positive rational between two integers, the upper one below 2^51,
    rounds to a finite double between the same integers. *)
Lemma round_double_between (q : Q) (lo hi : Z) :
  0 < lo -> hi <= 2 ^ 51 ->
  (inject_Z lo <= q)%Q -> (q <= inject_Z hi)%Q ->
  exists v, JS.round_double q = JS.Num v
            /\ (inject_Z lo <= v)%Q /\ (v <= inject_Z hi)%Q.
Proof.
  intros Hlo Hhi Hle Hge.
  destruct q as [a b]. unfold Qle in Hle, Hge. cbn in Hle, Hge.
  assert (Ha : 0 < a) by nia.
  unfold JS.round_double. cbn [Qnum Qden].
  destruct (a =? 0) eqn:Ha0; [apply Z.eqb_eq in Ha0; lia|].
  destruct (a <? 0) eqn:Han; [apply Z.ltb_lt in Han; lia|].
  rewrite Z.abs_eq by lia.
  unfold JS.round_positive.
  set (e := JS.binary_exponent a (Zpos b)).
  assert (He : e <= Z.log2 a - Z.log2 (Zpos b)).
  { subst e. unfold JS.binary_exponent.
    match goal with |- context [if ?c then _ else _] => destruct c end; lia. }
  assert (Hlog : Z.log2 a <= 51 + Z.log2 (Zpos b)).
  { rewrite <- Z.log2_mul_pow2 by lia.
    apply Z.log2_le_mono. nia. }
  set (p := Z.max (e - 52) (-1074)).
  assert (Hp : p < 0) by (subst p; lia).
  destruct (0 <=? p) eqn:Hp0; [apply Z.leb_le in Hp0; lia|].
  assert (Hpow : 0 < 2 ^ (- p)) by (apply Z.pow_pos_nonneg; lia).
  eexists. split; [reflexivity|].
  destruct (round_half_even_between (a * 2 ^ (- p)) (Zpos b)
              (lo * 2 ^ (- p)) (hi * 2 ^ (- p))) as [Hm1 Hm2];
    [lia | nia | nia |].
  split; rewrite Qred_correct; unfold Qle; cbn [Qnum Qden inject_Z];
    rewrite Z2Pos.id by lia; lia.
Qed.

(** X1. On a non-empty list the score is a finite number between 2 and 6:
    the cap at 10 is never reached and the score is never below 2. *)
Theorem calculateRiskScore_range (positions : list Position) :
  positions <> [] ->
  exists score,
    calculateRiskScore positions = JS.Num score
    /\ (inject_Z 2 <= score)%Q /\ (score <= inject_Z 6)%Q.
Proof.
  intros Hne. unfold calculateRiskScore. rewrite fold_left_points.
  rewrite Z.add_0_l.
  pose proof (total_points_range positions) as Hrange.
  set (total := total_points positions) in *.
  set (n := Z.of_nat (List.length positions)) in *.
  assert (Hn : 0 < n).
  { subst n. destruct positions; [contradiction|cbn [List.length]; lia]. }
  unfold JS.div, JS.ofZ, JS.is_zero. cbn [Qnum inject_Z].
  destruct (n =? 0) eqn:Hz; [apply Z.eqb_eq in Hz; lia|].
  destruct (round_double_between (inject_Z total / inject_Z n) 2 6)
    as (v & Hv & Hlo & Hhi); try lia.
  - destruct n as [|k|k]; try lia.
    unfold Qle. cbn. lia.
  - destruct n as [|k|k]; try lia.
    unfold Qle. cbn. lia.
  - rewrite Hv. exists v. split; [|split; assumption].
    unfold JS.Math_min, JS.gt.
    destruct (Qle_bool v (inject_Z 10)) eqn:Hb; [reflexivity|].
    exfalso.
    assert (Hten : (v <= inject_Z 10)%Q).
    { apply Qle_trans with (inject_Z 6); [exact Hhi|].
      unfold Qle; cbn; lia. }
    apply Qle_bool_iff in Hten. congruence.
Qed.

Lemma calculateRiskScore_range_witness :
  exists score,
    calculateRiskScore [uniswap_at_25; aerodrome_at_5; compound_at_10]
    = JS.Num score
    /\ (inject_Z 2 <= score)%Q /\ (score <= inject_Z 6)%Q.
Proof.
  apply (calculateRiskScore_range
           [uniswap_at_25; aerodrome_at_5; compound_at_10]).
  discriminate.
Defined.

(** ** The score and the order of the positions *)

Lemma total_points_permutation (ps qs : list Position) :
  Permutation ps qs -> total_points ps = total_points qs.
Proof.
  unfold total_points.
  induction 1 as [| p ps qs _ IH | p q ps | ps qs rs _ IH1 _ IH2]; cbn.
  - reflexivity.
  - now rewrite IH.
  - lia.
  - congruence.
Qed.

(** X2. The score does not depend on the order of the positions. *)
Theorem calculateRiskScore_permutation (ps qs : list Position) :
  Permutation ps qs -> calculateRiskScore ps = calculateRiskScore qs.
Proof.
  intros Hperm. unfold calculateRiskScore.
  rewrite !fold_left_points.
  rewrite (total_points_permutation ps qs Hperm).
  rewrite (Permutation_length Hperm). reflexivity.
Qed.

Lemma calculateRiskScore_permutation_witness :
  calculateRiskScore [uniswap_at_25; aerodrome_at_5]
  = calculateRiskScore [aerodrome_at_5; uniswap_at_25].
Proof.
  apply calculateRiskScore_permutation. apply perm_swap.
Defined.

(** ** The rebalancing hints *)

(** X3. The hints are the over-concentration hint, present exactly when
    some entry has a percentage above 50, followed by the high-APR hint,
    present exactly when some entry has an APR above 25; nothing else. *)
Theorem getRebalancingSuggestions_hints (breakdown : list Holding) :
  getRebalancingSuggestions breakdown
  = ((if existsb (fun p => JS.gt (holding_percentage p) (JS.ofZ 50)) breakdown
      then [diversify_hint] else [])
     ++ (if existsb (fun p => JS.gt (holding_apr p) (JS.ofZ 25)) breakdown
         then [high_apr_hint] else []))%list
  /\ (In diversify_hint (getRebalancingSuggestions breakdown)
      <-> exists p, In p breakdown
                    /\ JS.gt (holding_percentage p) (JS.ofZ 50) = true)
  /\ (In high_apr_hint (getRebalancingSuggestions breakdown)
      <-> exists p, In p breakdown
                    /\ JS.gt (holding_apr p) (JS.ofZ 25) = true).
Proof.
  assert (Hfilter : forall (f : Holding -> bool) l,
             (0 <? List.length (filter f l))%nat = existsb f l).
  { intros f l. induction l as [|x l IH]; cbn; [reflexivity|].
    destruct (f x); cbn; [reflexivity|exact IH]. }
  assert (Hshape :
    getRebalancingSuggestions breakdown
    = ((if existsb (fun p => JS.gt (holding_percentage p) (JS.ofZ 50))
                   breakdown
        then [diversify_hint] else [])
       ++ (if existsb (fun p => JS.gt (holding_apr p) (JS.ofZ 25)) breakdown
           then [high_apr_hint] else []))%list).
  { unfold getRebalancingSuggestions. rewrite Hfilter.
    destruct (existsb _ breakdown), (existsb _ breakdown); reflexivity. }
  split; [exact Hshape|].
  rewrite Hshape. split.
  - rewrite <- existsb_exists.
    destruct (existsb _ breakdown) eqn:Hd, (existsb _ breakdown) eqn:Ha
      in |- *; cbn; intuition (try discriminate; try congruence).
  - rewrite <- existsb_exists.
    destruct (existsb (fun p => JS.gt (holding_percentage p) (JS.ofZ 50))
                      breakdown),
      (existsb (fun p => JS.gt (holding_apr p) (JS.ofZ 25)) breakdown);
      cbn; intuition (try discriminate; try congruence).
Qed.

Lemma balances_have_no_apr (entries : list BalanceEntry) :
  existsb (fun p => JS.gt (holding_apr p) (JS.ofZ 25))
          (map holding_of_balance entries)
  = false.
Proof.
  induction entries as [|b l IH]; cbn; [reflexivity|exact IH].
Qed.

(** X4. Fed with the breakdown of a [getPortfolioBalance] snapshot, whose
    entries have no [apr], the hints never include the high-APR one: the
    result is empty or the over-concentration hint alone. *)
Theorem getRebalancingSuggestions_of_balance (snapshot : PortfolioBalance) :
  let hints :=
    getRebalancingSuggestions
      (map holding_of_balance (balance_breakdown snapshot)) in
  ~ In high_apr_hint hints
  /\ (hints = [] \/ hints = [diversify_hint]).
Proof.
  cbv zeta.
  destruct (getRebalancingSuggestions_hints
              (map holding_of_balance (balance_breakdown snapshot)))
    as (Hshape & _ & Hhigh).
  pose proof (balances_have_no_apr (balance_breakdown snapshot)) as Hnone.
  split.
  - rewrite Hhigh. intros (p & Hin & Hgt).
    assert (Hex : existsb (fun p => JS.gt (holding_apr p) (JS.ofZ 25))
                    (map holding_of_balance (balance_breakdown snapshot))
                  = true)
      by (apply existsb_exists; eauto).
    congruence.
  - rewrite Hshape, Hnone.
    destruct (existsb _ _); [right|left]; reflexivity.
Qed.

(** ** Strings *)

Lemma length_append (a b : string) :
  String.length (a ++ b) = (String.length a + String.length b)%nat.
Proof. induction a as [|c a IH]; cbn; [reflexivity|now rewrite IH]. Qed.

Lemma append_empty_r (a : string) : a ++ EmptyString = a.
Proof. induction a as [|c a IH]; cbn; [reflexivity|now rewrite IH]. Qed.

Lemma append_inj_length (a b x y : string) :
  String.length a = String.length b -> a ++ x = b ++ y -> a = b /\ x = y.
Proof.
  revert b. induction a as [|c a IH]; intros [|d b] Hlen Heq;
    cbn in *; try discriminate.
  - split; [reflexivity|exact Heq].
  - injection Heq as -> Heq. injection Hlen as Hlen.
    destruct (IH b Hlen Heq) as [-> ->]. split; reflexivity.
Qed.

Lemma substring_0_0 (s : string) : substring 0 0 s = EmptyString.
Proof. destruct s; reflexivity. Qed.

Lemma substring_0_append (a b : string) :
  substring 0 (String.length a) (a ++ b) = a.
Proof.
  induction a as [|c a IH]; cbn.
  - apply substring_0_0.
  - now rewrite IH.
Qed.

Lemma substring_length_le (n m : nat) (s : string) :
  (String.length (substring n m s) <= m)%nat.
Proof.
  revert n m. induction s as [|c s IH]; intros [|n] [|m]; cbn; try lia.
  - specialize (IH 0%nat m). lia.
  - apply (IH n 0%nat).
  - apply (IH n (S m)).
Qed.

Lemma length_substring_0 (n : nat) (s : string) :
  String.length (substring 0 n s) = Nat.min n (String.length s).
Proof.
  revert n. induction s as [|c s IH]; intros [|n]; cbn; try reflexivity.
  now rewrite IH.
Qed.

Lemma length_slice (n : nat) (s : string) :
  String.length (JS.slice n s) = (String.length s - n)%nat.
Proof.
  revert n. induction s as [|c s IH]; intros [|n]; cbn; try reflexivity.
  apply IH.
Qed.

Lemma filler_length (n : nat) (cur pad : string) :
  pad <> EmptyString -> String.length (JS.filler n cur pad) = n.
Proof.
  intros Hpad. revert cur. induction n as [|n IH]; intros cur; cbn.
  - reflexivity.
  - destruct cur as [|c r].
    + destruct pad as [|c r]; [contradiction|]. cbn. now rewrite IH.
    + cbn. now rewrite IH.
Qed.

(** A word has 64 characters, unless what it pads has more. *)
Lemma word_length (s : string) :
  String.length (word s) = Nat.max 64 (String.length s).
Proof.
  unfold word, JS.padStart.
  destruct (64 <=? String.length s)%nat eqn:Hlen.
  - apply Nat.leb_le in Hlen. lia.
  - apply Nat.leb_gt in Hlen.
    rewrite length_append, filler_length by discriminate. lia.
Qed.

(** ** What the encoders leave out *)

(** X5. The payload of an Aerodrome swap carries neither the routes, nor
    the recipient, nor the deadline; the payload of a liquidity removal
    carries neither minimum nor the deadline; the payload of a stake does
    not carry the pool; the payload of a liquidity addition carries the
    two tokens and the fee, and none of the ticks, amounts, minimums,
    recipient and deadline. *)
Theorem encoders_leave_out :
  (forall amountIn amountOutMin routes routes' to to' deadline deadline',
      encodeAerodromeSwap amountIn amountOutMin routes to deadline
      = encodeAerodromeSwap amountIn amountOutMin routes' to' deadline')
  /\ (forall tokenId liquidity min0 min1 deadline min0' min1' deadline',
      encodeRemoveLiquidityData tokenId liquidity min0 min1 deadline
      = encodeRemoveLiquidityData tokenId liquidity min0' min1' deadline')
  /\ (forall pool pool' amount,
      encodeStakeData pool amount = encodeStakeData pool' amount)
  /\ (forall p q,
      lp_token0 p = lp_token0 q -> lp_token1 p = lp_token1 q ->
      lp_fee p = lp_fee q ->
      encodeLiquidityData p = encodeLiquidityData q).
Proof.
  repeat split. intros p q H0 H1 Hfee.
  unfold encodeLiquidityData. now rewrite H0, H1, Hfee.
Qed.

Lemma encoders_leave_out_witness :
  encodeLiquidityData
    {| lp_token0 := "0xA0b86a33E6417c8f2c8B758B2d7D2E4C2F2e2e2e";
       lp_token1 := "0x833589fCD6eDb6E08f4c7C32D4f71b54bdA02913";
       lp_fee := JS.ofZ 3000;
       tickLower := JS.ofZ (-887220); tickUpper := JS.ofZ 887220;
       amount0Desired := "1000000000000000000";
       amount1Desired := "1000000000";
       amount0Min := "950000000000000000"; amount1Min := "950000000";
       lp_recipient := "0x1234567890123456789012345678901234567890";
       lp_deadline := JS.ofZ 1893456000 |}
  = encodeLiquidityData
      {| lp_token0 := "0xA0b86a33E6417c8f2c8B758B2d7D2E4C2F2e2e2e";
         lp_token1 := "0x833589fCD6eDb6E08f4c7C32D4f71b54bdA02913";
         lp_fee := JS.ofZ 3000;
         tickLower := JS.ofZ 0; tickUpper := JS.ofZ 0;
         amount0Desired := "0"; amount1Desired := "0";
         amount0Min := "0"; amount1Min := "0";
         lp_recipient := "0x0000000000000000000000000000000000000001";
         lp_deadline := JS.ofZ 0 |}.
Proof.
  apply (proj2 (proj2 (proj2 encoders_leave_out))); reflexivity.
Defined.

(** X6. Asking for the routes between two tokens and swapping along them
    sends one call, to the Aerodrome router, whose payload is made of the
    two amounts: the tokens of the route are not part of what is sent. *)
Theorem aerodrome_swap_along_routes (this : DeFiIntegrator)
  (tokenA tokenB amountIn amountOutMin to : string) (deadline : JS.number)
  (w : World) :
  calls (snd ((routes <- getAerodromeRoutes tokenA tokenB ;;
               swapOnAerodrome this amountIn amountOutMin routes to deadline)
                w))
  = (calls w
     ++ [SendTransaction (aerodromeRouter this) "0"
           ("0x38ed1739" ++ word (hex_of_amount amountIn)
                         ++ word (hex_of_amount amountOutMin))])%list.
Proof.
  rewrite await_run. unfold getAerodromeRoutes, resolve.
  unfold swapOnAerodrome. cbv zeta. rewrite run_dispatch. reflexivity.
Qed.

(** ** Selectors *)

Lemma selector_of_append (sel rest : string) :
  String.length sel = 10%nat -> selector_of (sel ++ rest) = sel.
Proof.
  intros Hlen. unfold selector_of. rewrite <- Hlen.
  apply substring_0_append.
Qed.

(** X7. Whatever their arguments, the payloads of the eight encoders are
    pairwise different: each starts with a selector of its own. *)
Theorem payloads_tell_operations_apart
  (swap : SwapParams) (amountIn amountOutMin : string) (routes : list Route)
  (to : string) (deadline : JS.number) (mint : LiquidityParams)
  (tokenId : JS.number) (liquidity min0 min1 : string)
  (deadline' : JS.number) (supplied supply borrowed borrow : string)
  (pool staked : string) :
  NoDup [ encodeSwapData swap;
          encodeAerodromeSwap amountIn amountOutMin routes to deadline;
          encodeLiquidityData mint;
          encodeRemoveLiquidityData tokenId liquidity min0 min1 deadline';
          encodeSupplyData supplied supply;
          encodeBorrowData borrowed borrow;
          encodeStakeData pool staked;
          encodeClaimData ].
Proof.
  apply (NoDup_map_inv selector_of).
  unfold encodeSwapData, encodeAerodromeSwap, encodeLiquidityData,
    encodeRemoveLiquidityData, encodeSupplyData, encodeBorrowData,
    encodeStakeData.
  cbn [map]. rewrite !selector_of_append by reflexivity.
  change (selector_of encodeClaimData) with "0x3d18b912".
  repeat constructor; cbn [In]; intuition discriminate.
Qed.

(** ** The size of a payload *)

Lemma valid_address_shape (a : string) :
  isValidBaseAddress a = true ->
  exists body,
    a = String "0" (String "x" body)
    /\ String.length body = 40%nat
    /\ JSText.all_chars JSText.isHexDigit body = true.
Proof.
  unfold isValidBaseAddress. intros Hvalid.
  destruct a as [|c0 [|c1 body]]; try discriminate;
    [destruct c0 as [[] [] [] [] [] [] [] []]; discriminate|].
  destruct (Ascii.eqb c0 "0") eqn:H0;
    [apply Ascii.eqb_eq in H0; subst c0
    |destruct c0 as [[] [] [] [] [] [] [] []]; discriminate].
  destruct (Ascii.eqb c1 "x") eqn:H1;
    [apply Ascii.eqb_eq in H1; subst c1
    |destruct c1 as [[] [] [] [] [] [] [] []]; discriminate].
  apply andb_true_iff in Hvalid as [Hlen Hhex].
  apply Nat.eqb_eq in Hlen. now exists body.
Qed.

Lemma digits_loop_length (fuel : nat) :
  forall (z : Z) (acc : string) (k : nat),
    (1 <= k)%nat -> 0 <= z < 16 ^ Z.of_nat k ->
    (String.length (JS.digits_loop 16 fuel z acc)
     <= k + String.length acc)%nat.
Proof.
  induction fuel as [|fuel IH]; intros z acc k Hk Hz; cbn [JS.digits_loop].
  - lia.
  - destruct (z / 16 =? 0) eqn:Hq.
    + cbn [String.length]. lia.
    + apply Z.eqb_neq in Hq.
      destruct k as [|[|k]]; [lia| |].
      * exfalso. apply Hq. apply Z.div_small. cbn in Hz. lia.
      * specialize (IH (z / 16)
                       (String (JS.digit_char (z mod 16)) acc) (S k)).
        cbn [String.length] in IH.
        assert (0 <= z / 16 < 16 ^ Z.of_nat (S k)).
        { split; [apply Z.div_pos; lia|].
          apply Z.div_lt_upper_bound; [lia|].
          replace (Z.of_nat (S (S k))) with (Z.succ (Z.of_nat (S k)))
            in Hz by lia.
          rewrite Z.pow_succ_r in Hz by lia. lia. }
        specialize (IH ltac:(lia) H). lia.
Qed.

(** A non-negative integer prints in any radix as its digits, with no
    sign and no fraction. *)
Lemma toString_radix_integer (radix z : Z) :
  0 <= z ->
  JS.toString_radix radix (JS.ofZ z) = JS.integer_digits radix z.
Proof.
  intros Hz. unfold JS.toString_radix, JS.ofZ, JS.sign_prefix.
  cbn [Qnum inject_Z].
  destruct (z <? 0) eqn:Hneg; [apply Z.ltb_lt in Hneg; lia|].
  assert (Hfloor : Qfloor (Qabs (inject_Z z)) = z).
  { unfold Qabs, Qfloor, inject_Z. rewrite Z.abs_eq by lia.
    apply Z.div_1_r. }
  rewrite Hfloor.
  assert (Hfrac : Qeq_bool (Qred (Qabs (inject_Z z) - inject_Z z)) 0 = true).
  { apply Qeq_bool_iff. rewrite Qred_correct.
    unfold Qabs, inject_Z, Qminus, Qplus, Qopp, Qeq. cbn.
    rewrite Z.abs_eq by lia. lia. }
  rewrite Hfrac. cbn [append]. apply append_empty_r.
Qed.

Lemma hex_of_amount_length (amount : string) (z : Z) :
  JS.parseInt amount = JS.ofZ z -> 0 <= z < 2 ^ 256 ->
  (String.length (hex_of_amount amount) <= 64)%nat.
Proof.
  intros Hparse Hz. unfold hex_of_amount.
  rewrite Hparse, toString_radix_integer by lia.
  unfold JS.integer_digits.
  pose proof (digits_loop_length (S (Z.to_nat (Z.log2 z))) z EmptyString 64)
    as Hlen.
  cbn [String.length] in Hlen. rewrite Nat.add_0_r in Hlen.
  apply Hlen; [lia|].
  change (16 ^ Z.of_nat 64) with (2 ^ 256). exact Hz.
Qed.

(** X8. A swap payload has 10 characters of selector and three words,
    each of 64 characters or of the length of its field when that is
    more.  With two well-formed addresses and an amount that reads as an
    integer below 2^256, it has exactly 202 characters. *)
Theorem encodeSwapData_length (params : SwapParams) :
  String.length (encodeSwapData params)
  = (10 + Nat.max 64 (String.length (tokenIn params) - 2)
     + Nat.max 64 (String.length (tokenOut params) - 2)
     + Nat.max 64 (String.length (hex_of_amount (amountIn params))))%nat
  /\ (forall z,
         isValidBaseAddress (tokenIn params) = true ->
         isValidBaseAddress (tokenOut params) = true ->
         JS.parseInt (amountIn params) = JS.ofZ z -> 0 <= z < 2 ^ 256 ->
         String.length (encodeSwapData params) = 202%nat).
Proof.
  assert (Hgeneral :
    String.length (encodeSwapData params)
    = (10 + Nat.max 64 (String.length (tokenIn params) - 2)
       + Nat.max 64 (String.length (tokenOut params) - 2)
       + Nat.max 64 (String.length (hex_of_amount (amountIn params))))%nat).
  { unfold encodeSwapData.
    rewrite !length_append, !word_length, !length_slice.
    cbn [String.length]. lia. }
  split; [exact Hgeneral|].
  intros z Hin Hout Hparse Hz. rewrite Hgeneral.
  destruct (valid_address_shape _ Hin) as (bin & -> & Hlin & _).
  destruct (valid_address_shape _ Hout) as (bout & -> & Hlout & _).
  pose proof (hex_of_amount_length _ z Hparse Hz).
  cbn [String.length]. lia.
Qed.

Lemma encodeSwapData_length_witness :
  String.length (encodeSwapData sample_swap) = 202%nat.
Proof.
  apply (proj2 (encodeSwapData_length sample_swap) 1000000000000000000);
    try reflexivity.
  split; [lia|]. apply Z.ltb_lt. vm_compute. reflexivity.
Defined.

(** ** Reading an address back from a payload *)

Lemma word_of_address_body (body : string) :
  String.length body = 40%nat ->
  word body = "000000000000000000000000" ++ body.
Proof.
  intros Hlen. unfold word, JS.padStart. rewrite Hlen. reflexivity.
Qed.

Lemma substring_0_word (body rest : string) :
  String.length body = 40%nat ->
  substring 0 40 (body ++ rest) = body.
Proof. intros <-. apply substring_0_append. Qed.

(** X9. A well-formed address is read back from the payload it was
    encoded in: the asset of a supply or of a borrow at offset 34, the
    two tokens of a swap at offsets 34 and 98, 40 characters each. *)
Theorem address_read_back :
  (forall asset amount,
      isValidBaseAddress asset = true ->
      "0x" ++ JS.substr 34 40 (encodeSupplyData asset amount) = asset
      /\ "0x" ++ JS.substr 34 40 (encodeBorrowData asset amount) = asset)
  /\ (forall params,
         isValidBaseAddress (tokenIn params) = true ->
         isValidBaseAddress (tokenOut params) = true ->
         "0x" ++ JS.substr 34 40 (encodeSwapData params) = tokenIn params
         /\ "0x" ++ JS.substr 98 40 (encodeSwapData params)
            = tokenOut params).
Proof.
  split.
  - intros asset amount Hvalid.
    destruct (valid_address_shape _ Hvalid) as (body & -> & Hlen & _).
    unfold encodeSupplyData, encodeBorrowData, JS.substr.
    cbn [JS.slice]. rewrite (word_of_address_body body Hlen).
    cbn [append substring].
    rewrite (substring_0_word body _ Hlen). split; reflexivity.
  - intros params Hin Hout.
    destruct (valid_address_shape _ Hin) as (bin & Ein & Hlin & _).
    destruct (valid_address_shape _ Hout) as (bout & Eout & Hlout & _).
    unfold encodeSwapData, JS.substr. rewrite Ein, Eout.
    cbn [JS.slice].
    rewrite (word_of_address_body bin Hlin),
      (word_of_address_body bout Hlout).
    cbn [append substring]. split.
    + now rewrite (substring_0_word bin _ Hlin).
    + destruct bin as [|c00 [|c01 [|c02 [|c03 [|c04 [|c05 [|c06 [|c07
        [|c08 [|c09 [|c10 [|c11 [|c12 [|c13 [|c14 [|c15 [|c16 [|c17
        [|c18 [|c19 [|c20 [|c21 [|c22 [|c23 [|c24 [|c25 [|c26 [|c27
        [|c28 [|c29 [|c30 [|c31 [|c32 [|c33 [|c34 [|c35 [|c36 [|c37
        [|c38 [|c39 [|c40 rest]]]]]]]]]]]]]]]]]]]]]]]]]]]]]]]]]]]]]]]]];
        try discriminate Hlin.
      cbn [append substring].
      now rewrite (substring_0_word bout _ Hlout).
Qed.

Lemma address_read_back_witness :
  "0x" ++ JS.substr 34 40
            (encodeSupplyData "0x833589fCD6eDb6E08f4c7C32D4f71b54bdA02913"
                              "1000000000")
  = "0x833589fCD6eDb6E08f4c7C32D4f71b54bdA02913"
  /\ "0x" ++ JS.substr 98 40 (encodeSwapData sample_swap)
     = tokenOut sample_swap.
Proof.
  split.
  - apply (proj1 address_read_back). reflexivity.
  - apply (proj2 address_read_back sample_swap); reflexivity.
Defined.

(** ** Amounts written in decimal *)

Lemma Qred_inject_Z (z : Z) : Qred (inject_Z z) = inject_Z z.
Proof.
  unfold Qred, inject_Z.
  pose proof (Z.ggcd_gcd z 1) as Hg.
  pose proof (Z.ggcd_correct_divisors z 1) as Hd.
  destruct (Z.ggcd z 1) as (g, (a, b)). cbn in *.
  rewrite Z.gcd_1_r in Hg. subst g.
  destruct Hd as [Ha Hb].
  assert (Ea : a = z) by lia. assert (Eb : b = 1) by lia.
  rewrite Ea, Eb. reflexivity.
Qed.

Lemma round_half_even_unit (z : Z) : JS.round_half_even z 1 = z.
Proof.
  unfold JS.round_half_even. rewrite Z.div_1_r, Z.mod_1_r. reflexivity.
Qed.

(** An integer below 2^53 is a double. *)
Lemma round_double_integer (z : Z) :
  0 <= z < 2 ^ 53 -> JS.round_double (inject_Z z) = JS.ofZ z.
Proof.
  intros Hz. unfold JS.round_double. cbn [Qnum Qden inject_Z].
  destruct (z =? 0) eqn:Hz0; [apply Z.eqb_eq in Hz0; now subst|].
  apply Z.eqb_neq in Hz0.
  destruct (z <? 0) eqn:Hneg; [apply Z.ltb_lt in Hneg; lia|].
  rewrite Z.abs_eq by lia.
  assert (Hlog : 0 <= Z.log2 z < 53).
  { split; [apply Z.log2_nonneg|]. apply Z.log2_lt_pow2; lia. }
  assert (He : JS.binary_exponent z 1 = Z.log2 z).
  { unfold JS.binary_exponent. change (Z.log2 1) with 0.
    rewrite Z.sub_0_r.
    destruct (0 <=? Z.log2 z) eqn:H0; [|apply Z.leb_gt in H0; lia].
    destruct (1 * 2 ^ Z.log2 z <=? z) eqn:H1; [reflexivity|].
    apply Z.leb_gt in H1.
    pose proof (Z.log2_spec z ltac:(lia)). lia. }
  unfold JS.round_positive. rewrite He.
  rewrite Z.max_l by lia.
  destruct (0 <=? Z.log2 z - 52) eqn:Hp.
  - apply Z.leb_le in Hp.
    replace (Z.log2 z - 52) with 0 by lia.
    change (2 ^ 0) with 1. rewrite !Z.mul_1_r, round_half_even_unit.
    destruct (2 ^ 1024 <=? z) eqn:Hbig; [|reflexivity].
    apply Z.leb_le in Hbig.
    assert (2 ^ 53 <= 2 ^ 1024) by (apply Z.pow_le_mono_r; lia). lia.
  - apply Z.leb_gt in Hp.
    rewrite round_half_even_unit.
    set (K := 2 ^ (- (Z.log2 z - 52))).
    assert (HK : 0 < K) by (apply Z.pow_pos_nonneg; lia).
    unfold JS.ofZ. f_equal. rewrite <- (Qred_inject_Z z).
    apply Qred_complete.
    unfold Qeq, inject_Z. cbn [Qnum Qden].
    rewrite Z2Pos.id by lia. lia.
Qed.

Lemma digit_value_digit_char (d : Z) :
  0 <= d < 10 -> JS.digit_value (JS.digit_char d) = Some d.
Proof.
  intros Hd.
  assert (d = 0 \/ d = 1 \/ d = 2 \/ d = 3 \/ d = 4 \/ d = 5 \/ d = 6
          \/ d = 7 \/ d = 8 \/ d = 9) as Hcases by lia.
  repeat (destruct Hcases as [-> | Hcases]; [reflexivity|]).
  subst. reflexivity.
Qed.

Lemma isDecimalDigit_digit_char (d : Z) :
  0 <= d < 10 -> JSText.isDecimalDigit (JS.digit_char d) = true.
Proof.
  intros Hd.
  assert (d = 0 \/ d = 1 \/ d = 2 \/ d = 3 \/ d = 4 \/ d = 5 \/ d = 6
          \/ d = 7 \/ d = 8 \/ d = 9) as Hcases by lia.
  repeat (destruct Hcases as [-> | Hcases]; [reflexivity|]).
  subst. reflexivity.
Qed.

Lemma read_digits_step (d : Z) (rest : string) (acc : Z) (count : nat) :
  0 <= d < 10 ->
  JS.read_digits 10 (String (JS.digit_char d) rest) acc count
  = JS.read_digits 10 rest (acc * 10 + d) (S count).
Proof.
  intros Hd. cbn [JS.read_digits].
  rewrite (digit_value_digit_char d Hd).
  destruct (d <? 10) eqn:Hlt; [reflexivity|apply Z.ltb_ge in Hlt; lia].
Qed.

(** Reading the digits that [digits_loop] wrote gives the number back. *)
Lemma read_digits_loop (fuel : nat) :
  forall (z : Z) (rest : string),
    0 <= z < 10 ^ Z.of_nat (S fuel) ->
    exists k,
      (1 <= k)%nat
      /\ forall acc count,
          JS.read_digits 10 (JS.digits_loop 10 (S fuel) z rest) acc count
          = JS.read_digits 10 rest (acc * 10 ^ Z.of_nat k + z)
                           (count + k)%nat.
Proof.
  induction fuel as [|fuel IH]; intros z rest Hz.
  - exists 1%nat. split; [lia|]. intros acc count.
    change (10 ^ Z.of_nat 1) with 10 in *.
    cbn [JS.digits_loop].
    assert (Hsmall : z / 10 = 0) by (apply Z.div_small; lia).
    assert (Hmod : z mod 10 = z) by (apply Z.mod_small; lia).
    rewrite Hmod.
    replace (if z / 10 =? 0 then String (JS.digit_char z) rest
             else String (JS.digit_char z) rest)
      with (String (JS.digit_char z) rest) by (destruct (z / 10 =? 0); reflexivity).
    rewrite read_digits_step by lia.
    f_equal. lia.
  - remember (S fuel) as f eqn:Hf.
    cbn [JS.digits_loop].
    pose proof (Z.mod_pos_bound z 10 ltac:(lia)) as Hmod.
    pose proof (Z.div_mod z 10 ltac:(lia)) as Hdiv.
    destruct (z / 10 =? 0) eqn:Hq.
    + apply Z.eqb_eq in Hq. exists 1%nat. split; [lia|].
      intros acc count. rewrite read_digits_step by lia.
      change (10 ^ Z.of_nat 1) with 10. f_equal; lia.
    + apply Z.eqb_neq in Hq.
      assert (Hz' : 0 <= z / 10 < 10 ^ Z.of_nat f).
      { split; [apply Z.div_pos; lia|].
        apply Z.div_lt_upper_bound; [lia|].
        rewrite Nat2Z.inj_succ, Z.pow_succ_r in Hz by lia. lia. }
      subst f.
      destruct (IH (z / 10) (String (JS.digit_char (z mod 10)) rest) Hz')
        as (k & Hk & Hread).
      exists (S k). split; [lia|]. intros acc count.
      rewrite Hread, read_digits_step by lia.
      rewrite Nat2Z.inj_succ, Z.pow_succ_r by lia.
      f_equal; lia.
Qed.

Lemma integer_digits_fuel (z : Z) :
  0 <= z -> z < 10 ^ Z.of_nat (S (Z.to_nat (Z.log2 z))).
Proof.
  intros Hz. rewrite Nat2Z.inj_succ, Z2Nat.id by apply Z.log2_nonneg.
  destruct (Z.eq_dec z 0) as [-> | Hne]; [reflexivity|].
  pose proof (Z.log2_spec z ltac:(lia)) as [_ Hlt].
  assert (2 ^ Z.succ (Z.log2 z) <= 10 ^ Z.succ (Z.log2 z)).
  { apply Z.pow_le_mono_l. lia. }
  lia.
Qed.

Lemma read_integer_digits (z : Z) :
  0 <= z ->
  exists k, JS.read_digits 10 (JS.integer_digits 10 z) 0 O
            = (z, S k, EmptyString).
Proof.
  intros Hz. unfold JS.integer_digits.
  destruct (read_digits_loop (Z.to_nat (Z.log2 z)) z EmptyString)
    as (k & Hk & Hread).
  { split; [exact Hz|apply integer_digits_fuel; exact Hz]. }
  destruct k as [|k]; [lia|]. exists k.
  rewrite Hread. cbn [JS.read_digits].
  rewrite Z.mul_0_l, Z.add_0_l. reflexivity.
Qed.

Lemma digits_loop_decimal (fuel : nat) :
  forall (z : Z) (rest : string),
    0 <= z ->
    JSText.all_chars JSText.isDecimalDigit rest = true ->
    JSText.all_chars JSText.isDecimalDigit (JS.digits_loop 10 fuel z rest)
    = true.
Proof.
  induction fuel as [|fuel IH]; intros z rest Hz Hrest;
    cbn [JS.digits_loop]; [exact Hrest|].
  assert (Hall : JSText.all_chars JSText.isDecimalDigit
                   (String (JS.digit_char (z mod 10)) rest) = true).
  { cbn [JSText.all_chars].
    rewrite isDecimalDigit_digit_char
      by (apply Z.mod_pos_bound; lia).
    exact Hrest. }
  destruct (z / 10 =? 0); [exact Hall|].
  apply IH; [apply Z.div_pos; lia|exact Hall].
Qed.


Lemma not_x_of_decimal (c : ascii) :
  JSText.isDecimalDigit c = true -> c <> "x"%char /\ c <> "X"%char.
Proof. intros H; split; intros ->; discriminate. Qed.

(** What [parseInt] does with a string that starts with a decimal digit,
    provided no [x] comes second. *)
Lemma parseInt_from_digit (c : ascii) (r : string) :
  JSText.isDecimalDigit c = true ->
  match r with
  | String c' _ => c' <> "x"%char /\ c' <> "X"%char
  | EmptyString => True
  end ->
  JS.parseInt (String c r)
  = match JS.read_digits 10 (String c r) 0 O with
    | (z, S _, _) => JS.round_double (inject_Z z)
    | (_, O, _) => JS.NaN
    end.
Proof.
  intros Hdec Hsecond.
  destruct c as [b0 b1 b2 b3 b4 b5 b6 b7].
  destruct b0, b1, b2, b3, b4, b5, b6, b7; try discriminate Hdec;
    try reflexivity.
  destruct r as [|c' r']; [reflexivity|].
  destruct Hsecond as [Hx HX].
  destruct c' as [b0 b1 b2 b3 b4 b5 b6 b7].
  destruct b0, b1, b2, b3, b4, b5, b6, b7;
    try (exfalso; apply Hx; reflexivity);
    try (exfalso; apply HX; reflexivity);
    reflexivity.
Qed.

(** X10. An amount below 2^53 written in decimal is read exactly, and its
    word in the payload is its hexadecimal writing padded to 64
    characters.  From 2^53 on this fails: 2^53 + 1 is read as 2^53. *)
Theorem decimal_amount_exact :
  (forall z,
      0 <= z < 2 ^ 53 ->
      JS.parseInt (JS.integer_digits 10 z) = JS.ofZ z
      /\ hex_of_amount (JS.integer_digits 10 z) = JS.integer_digits 16 z
      /\ (forall pool,
             encodeStakeData pool (JS.integer_digits 10 z)
             = "0xa694fc3a" ++ JS.padStart 64 "0" (JS.integer_digits 16 z)))
  /\ JS.integer_digits 10 (2 ^ 53 + 1) = "9007199254740993"
  /\ JS.parseInt "9007199254740993" = JS.ofZ (2 ^ 53).
Proof.
  split; [|split; vm_compute; reflexivity].
  intros z Hz.
  assert (Hparse : JS.parseInt (JS.integer_digits 10 z) = JS.ofZ z).
  { destruct (read_integer_digits z ltac:(lia)) as (k & Hread).
    pose proof (digits_loop_decimal (S (Z.to_nat (Z.log2 z))) z EmptyString
                  ltac:(lia) eq_refl) as Hall.
    fold (JS.integer_digits 10 z) in Hall.
    destruct (JS.integer_digits 10 z) as [|c r] eqn:Hdigits;
      [discriminate Hread|].
    cbn [JSText.all_chars] in Hall.
    apply andb_true_iff in Hall as [Hc Hr].
    rewrite parseInt_from_digit.
    - rewrite Hread. apply round_double_integer. exact Hz.
    - exact Hc.
    - destruct r as [|c' r']; [exact I|].
      cbn [JSText.all_chars] in Hr.
      apply andb_true_iff in Hr as [Hc' _].
      apply not_x_of_decimal. exact Hc'. }
  assert (Hhex : hex_of_amount (JS.integer_digits 10 z)
                 = JS.integer_digits 16 z).
  { unfold hex_of_amount. rewrite Hparse.
    apply toString_radix_integer. lia. }
  split; [exact Hparse|]. split; [exact Hhex|].
  intros pool. unfold encodeStakeData, word. now rewrite Hhex.
Qed.

Lemma decimal_amount_exact_witness :
  JS.parseInt (JS.integer_digits 10 1000000000) = JS.ofZ 1000000000.
Proof.
  apply (proj1 decimal_amount_exact 1000000000).
  split; [lia|]. apply Z.ltb_lt. vm_compute. reflexivity.
Defined.

(** ** What follows the digits of an amount *)

Lemma decimal_digit_value (c : ascii) :
  JSText.isDecimalDigit c = true ->
  exists d, JS.digit_value c = Some d /\ (d <? 10) = true.
Proof.
  intros Hdec. destruct c as [b0 b1 b2 b3 b4 b5 b6 b7].
  destruct b0, b1, b2, b3, b4, b5, b6, b7; try discriminate Hdec;
    eexists; split; reflexivity.
Qed.

Lemma other_digit_value (c : ascii) :
  JSText.isDecimalDigit c = false ->
  match JS.digit_value c with
  | Some d => (d <? 10) = false
  | None => True
  end.
Proof.
  intros Hdec. destruct c as [b0 b1 b2 b3 b4 b5 b6 b7].
  destruct b0, b1, b2, b3, b4, b5, b6, b7; try discriminate Hdec;
    cbn; try exact I; reflexivity.
Qed.

Lemma read_digits_stops (t : string) (acc : Z) (count : nat) :
  JSText.ends_digits t = true ->
  JS.read_digits 10 t acc count = (acc, count, t).
Proof.
  intros Hends. destruct t as [|c r]; [reflexivity|].
  cbn [JSText.ends_digits] in Hends.
  apply andb_true_iff in Hends as [Hends _].
  apply andb_true_iff in Hends as [Hdec _].
  apply negb_true_iff in Hdec.
  pose proof (other_digit_value c Hdec) as Hvalue.
  cbn [JS.read_digits].
  destruct (JS.digit_value c) as [d|]; [|reflexivity].
  now rewrite Hvalue.
Qed.

(** Decimal digits are read to their end, and what follows them is left
    unread. *)
Lemma read_digits_append (s t : string) :
  JSText.all_chars JSText.isDecimalDigit s = true ->
  JSText.ends_digits t = true ->
  forall acc count,
  exists z,
    JS.read_digits 10 s acc count
    = (z, (count + String.length s)%nat, EmptyString)
    /\ JS.read_digits 10 (s ++ t) acc count
       = (z, (count + String.length s)%nat, t).
Proof.
  intros Hall Hends. induction s as [|c s IH]; intros acc count.
  - exists acc. cbn [append String.length]. rewrite Nat.add_0_r.
    split; [reflexivity|]. now apply read_digits_stops.
  - cbn [JSText.all_chars] in Hall.
    apply andb_true_iff in Hall as [Hc Hs].
    destruct (decimal_digit_value c Hc) as (d & Hvalue & Hlt).
    destruct (IH Hs (acc * 10 + d) (S count)) as (z & Hread & Hread').
    exists z. cbn [append JS.read_digits String.length].
    rewrite Hvalue, Hlt, Hread, Hread'.
    replace (S count + String.length s)%nat
      with (count + S (String.length s))%nat by lia.
    split; reflexivity.
Qed.

(** X11. [parseInt] stops at the first character that is no digit and
    drops the rest without complaint: an amount made of decimal digits
    followed by anything that starts with neither a digit nor an [x]
    (a decimal point, a unit, an exponent) is encoded as the digits
    alone. *)
Theorem amount_suffix_dropped (digits rest : string) :
  digits <> EmptyString ->
  JSText.all_chars JSText.isDecimalDigit digits = true ->
  JSText.ends_digits rest = true ->
  JS.parseInt (digits ++ rest) = JS.parseInt digits
  /\ (forall asset,
         encodeSupplyData asset (digits ++ rest)
         = encodeSupplyData asset digits
         /\ encodeBorrowData asset (digits ++ rest)
            = encodeBorrowData asset digits)
  /\ (forall pool,
         encodeStakeData pool (digits ++ rest) = encodeStakeData pool digits).
Proof.
  intros Hne Hall Hends.
  assert (Hparse : JS.parseInt (digits ++ rest) = JS.parseInt digits).
  { destruct (read_digits_append digits rest Hall Hends 0 O)
      as (z & Hread & Hread').
    destruct digits as [|c r]; [contradiction|].
    cbn [JSText.all_chars] in Hall.
    apply andb_true_iff in Hall as [Hc Hr].
    cbn [append] in *.
    rewrite !parseInt_from_digit; try exact Hc.
    - rewrite Hread, Hread'. reflexivity.
    - destruct r as [|c' r']; [exact I|].
      cbn [JSText.all_chars] in Hr.
      apply andb_true_iff in Hr as [Hc' _].
      now apply not_x_of_decimal.
    - destruct r as [|c' r']; cbn [append].
      + destruct rest as [|c' rest']; [exact I|].
        cbn [JSText.ends_digits] in Hends.
        apply andb_true_iff in Hends as [Hends HX].
        apply andb_true_iff in Hends as [_ Hx].
        apply negb_true_iff in Hx, HX.
        apply Ascii.eqb_neq in Hx, HX. split; assumption.
      + cbn [JSText.all_chars] in Hr.
        apply andb_true_iff in Hr as [Hc' _].
        now apply not_x_of_decimal. }
  split; [exact Hparse|].
  unfold encodeSupplyData, encodeBorrowData, encodeStakeData, hex_of_amount.
  rewrite Hparse. repeat split.
Qed.

Lemma amount_suffix_dropped_witness :
  JS.parseInt ("1" ++ ".5") = JS.parseInt "1"
  /\ encodeStakeData "0x1234567890123456789012345678901234567890"
                     ("1" ++ ".5")
     = encodeStakeData "0x1234567890123456789012345678901234567890" "1".
Proof.
  destruct (amount_suffix_dropped "1" ".5") as (Hparse & _ & Hstake);
    try reflexivity; [discriminate|].
  split; [exact Hparse|apply Hstake].
Defined.

(** ** The transaction methods of the SDK *)

(** X12. [swapTokens], [addLiquidity] and [bridgeToBase] never reach the
    network and never read their parameters: with a signer each resolves
    to one fixed receipt, without one each rejects, and the world is left
    as it was. *)
Theorem sdk_transactions_are_placeholders (sdk : BaseSDK) (w : World) :
  (forall p,
      snd (SDK.swapTokens sdk p w) = w
      /\ (signer sdk <> None ->
          fst (SDK.swapTokens sdk p w)
          = inr {| swap_txHash := "0x..."; amountOut := "0";
                   swap_gasUsed := 150000 |}))
  /\ (forall p,
      snd (SDK.addLiquidity sdk p w) = w
      /\ (signer sdk <> None ->
          fst (SDK.addLiquidity sdk p w)
          = inr {| add_txHash := "0x..."; lpTokens := "0";
                   add_gasUsed := 200000 |}))
  /\ (forall p,
      snd (SDK.bridgeToBase sdk p w) = w
      /\ (signer sdk <> None ->
          fst (SDK.bridgeToBase sdk p w)
          = inr {| bridge_txHash := "0x..."; bridgeId := "0x...";
                   estimatedTime := 600 |})).
Proof.
  unfold SDK.swapTokens, SDK.addLiquidity, SDK.bridgeToBase.
  destruct (signer sdk) as [wallet|]; repeat split;
    intros; try reflexivity; contradiction.
Qed.

Lemma sdk_transactions_are_placeholders_witness :
  fst (SDK.swapTokens signing_sdk sample_swapTokens
                      (fresh_world unreachable_network))
  = inr {| swap_txHash := "0x..."; amountOut := "0";
           swap_gasUsed := 150000 |}.
Proof.
  apply (proj1 (sdk_transactions_are_placeholders signing_sdk
                  (fresh_world unreachable_network))).
  discriminate.
Defined.

(** X13. The constructor of the SDK looks at the key before it builds a
    wallet.  Without a key, or with the empty string for a key, it
    succeeds with no signer and the wallet constructor is not asked.
    With any other key it asks the wallet constructor: a wallet becomes
    the signer, and a refusal is thrown by the constructor itself.  So an
    SDK that was built holds a signer exactly when its key was not
    empty. *)
Theorem signer_of_key (new_Wallet : WalletConstructor) (config : BaseConfig)
  (key : option string) :
  (key = None \/ key = Some EmptyString ->
   new_BaseSDK new_Wallet config key
   = inr {| provider := {| url := rpcUrl config |}; config := config;
            signer := None |})
  /\ (forall k wallet,
         key = Some k -> k <> EmptyString ->
         new_Wallet k {| url := rpcUrl config |} = inr wallet ->
         new_BaseSDK new_Wallet config key
         = inr {| provider := {| url := rpcUrl config |}; config := config;
                  signer := Some wallet |})
  /\ (forall k e,
         key = Some k -> k <> EmptyString ->
         new_Wallet k {| url := rpcUrl config |} = inl e ->
         new_BaseSDK new_Wallet config key = inl e)
  /\ (forall sdk,
         new_BaseSDK new_Wallet config key = inr sdk ->
         (signer sdk = None <-> key = None \/ key = Some EmptyString)).
Proof.
  unfold new_BaseSDK. split; [|split; [|split]].
  - intros [-> | ->]; reflexivity.
  - intros k wallet -> Hk Hwallet.
    destruct k as [|c k]; [contradiction|]. now rewrite Hwallet.
  - intros k e -> Hk Hwallet.
    destruct k as [|c k]; [contradiction|]. now rewrite Hwallet.
  - intros sdk Hbuilt. destruct key as [[|c k]|].
    + injection Hbuilt as <-. split; auto.
    + destruct (new_Wallet (String c k) _) as [e | wallet];
        [discriminate|].
      injection Hbuilt as <-. cbn [signer].
      split; [discriminate|]. intros [H | H]; discriminate.
    + injection Hbuilt as <-. split; auto.
Qed.

Lemma signer_of_key_witness :
  createBaseSDK strict_Wallet
    (Some "0x1111111111111111111111111111111111111111111111111111111111111111")
  = inr signing_sdk
  /\ createBaseSDK strict_Wallet (Some "abc")
     = inl (ProviderError "invalid private key")
  /\ createBaseSDK strict_Wallet (Some EmptyString) = inr keyless_sdk
  /\ (signer signing_sdk = None
      <-> Some "0x1111111111111111111111111111111111111111111111111111111111111111"
          = None
          \/ Some "0x1111111111111111111111111111111111111111111111111111111111111111"
             = Some EmptyString).
Proof.
  unfold createBaseSDK.
  set (mainnet := {| rpcUrl := "https://mainnet.base.org"; chainId := 8453;
                     explorerUrl := "https://basescan.org";
                     multicallAddress :=
                       "0xcA11bde05977b3631167028862bE2a173976CA11" |}).
  split; [|split; [|split]].
  - apply (proj1 (proj2 (signer_of_key strict_Wallet mainnet
                           (Some "0x1111111111111111111111111111111111111111111111111111111111111111")))
             "0x1111111111111111111111111111111111111111111111111111111111111111");
      [reflexivity|discriminate|reflexivity].
  - apply (proj1 (proj2 (proj2 (signer_of_key strict_Wallet mainnet
                                  (Some "abc")))) "abc");
      [reflexivity|discriminate|reflexivity].
  - exact (proj1 (signer_of_key strict_Wallet mainnet _) (or_intror eq_refl)).
  - apply (proj2 (proj2 (proj2 (signer_of_key strict_Wallet mainnet
                                  (Some "0x1111111111111111111111111111111111111111111111111111111111111111"))))
             signing_sdk).
    reflexivity.
Defined.

(** ** The pool address *)

(** X14. [getPoolInfo] makes no call: it takes one draw from
    [Math.random()] and leaves the rest of the world alone.  The address
    it makes up starts with ["0x"] and has at most 42 characters. *)
Theorem getPoolInfo_is_local (tokenA tokenB : string) (feeTier : JS.number)
  (w : World) :
  exists info w',
    getPoolInfo tokenA tokenB feeTier w = (inr info, w')
    /\ calls w' = calls w
    /\ network w' = network w
    /\ draws w' = S (draws w)
    /\ String.prefix "0x" (pool_address info) = true
    /\ (String.length (pool_address info) <= 42)%nat.
Proof.
  unfold getPoolInfo, await, Math_random, resolve.
  eexists; eexists. split; [reflexivity|]. cbn [calls network draws].
  repeat split; cbn [pool_address String.length append].
  - cbn [prefix]. destruct (JS.substr 2 40 _); reflexivity.
  - pose proof (substring_length_le 2 40
                  (JS.toString_radix 16 (JS.Num (random w (draws w))))).
    unfold JS.substr. lia.
Qed.

(** ** Short addresses *)

Lemma substring_0_all (n : nat) (s : string) :
  (String.length s <= n)%nat -> substring 0 n s = s.
Proof.
  revert n. induction s as [|c s IH]; intros [|n] Hlen; cbn in *;
    try reflexivity; try lia.
  rewrite IH by lia. reflexivity.
Qed.

(** X15. The short form of an address has the length of its two ends
    plus three dots: 13 characters for a well-formed address, which keeps
    its ["0x"].  A string of four characters or fewer appears twice in
    its own short form. *)
Theorem formatAddress_shape (a : string) :
  String.length (formatAddress a)
  = (Nat.min 6 (String.length a) + 3 + Nat.min 4 (String.length a))%nat
  /\ (isValidBaseAddress a = true ->
      String.length (formatAddress a) = 13%nat
      /\ String.prefix "0x" (formatAddress a) = true)
  /\ ((String.length a <= 4)%nat -> formatAddress a = a ++ "..." ++ a).
Proof.
  assert (Hlen : String.length (formatAddress a)
                 = (Nat.min 6 (String.length a) + 3
                    + Nat.min 4 (String.length a))%nat).
  { unfold formatAddress, JSText.slice_to, JSText.slice_last.
    rewrite !length_append, length_substring_0, length_slice.
    cbn [String.length]. lia. }
  split; [exact Hlen|]. split.
  - intros Hvalid.
    destruct (valid_address_shape a Hvalid) as (body & -> & Hbody & _).
    split.
    + rewrite Hlen. cbn [String.length]. rewrite Hbody. reflexivity.
    + destruct body as [|c0 [|c1 [|c2 [|c3 body]]]];
        try discriminate Hbody.
      reflexivity.
  - intros Hshort. unfold formatAddress, JSText.slice_to, JSText.slice_last.
    rewrite substring_0_all by lia.
    replace (String.length a - 4)%nat with 0%nat by lia.
    reflexivity.
Qed.

Lemma formatAddress_shape_witness :
  String.length (formatAddress "0x833589fCD6eDb6E08f4c7C32D4f71b54bdA02913")
  = 13%nat
  /\ formatAddress "0x1" = "0x1" ++ "..." ++ "0x1".
Proof.
  split.
  - apply (proj1 (proj2 (formatAddress_shape _))). reflexivity.
  - apply (proj2 (proj2 (formatAddress_shape "0x1"))). cbn. lia.
Defined.

(** ** The configuration lookups *)

(** X16. [getNetworkConfig] answers for the two chains of Base, with the
    configuration of the chain asked for, and with [null] for every other
    identifier: there is no default network. *)
Theorem getNetworkConfig_lookup (id : Z) :
  (forall c, Config.getNetworkConfig id = Some c -> Config.chainId c = id)
  /\ (Config.getNetworkConfig id = None <-> id <> 8453 /\ id <> 84532).
Proof.
  unfold Config.getNetworkConfig.
  destruct (id =? 8453) eqn:H1; [apply Z.eqb_eq in H1|apply Z.eqb_neq in H1].
  - split; [intros c [= <-]; now subst|].
    split; [discriminate|intros [H _]; contradiction].
  - destruct (id =? 84532) eqn:H2;
      [apply Z.eqb_eq in H2|apply Z.eqb_neq in H2].
    + split; [intros c [= <-]; now subst|].
      split; [discriminate|intros [_ H]; contradiction].
    + split; [discriminate|]. split; auto.
Qed.

Lemma getNetworkConfig_lookup_witness :
  Config.chainId Config.BASE_SEPOLIA = 84532
  /\ Config.getNetworkConfig 1 = None.
Proof.
  split.
  - apply (proj1 (getNetworkConfig_lookup 84532)). reflexivity.
  - apply (proj2 (getNetworkConfig_lookup 1)). split; discriminate.
Defined.

Lemma lower_char_idempotent (c : ascii) :
  JSText.lower_char (JSText.lower_char c) = JSText.lower_char c.
Proof.
  destruct c as [b0 b1 b2 b3 b4 b5 b6 b7].
  destruct b0, b1, b2, b3, b4, b5, b6, b7; reflexivity.
Qed.

Lemma lower_char_upper_char (c : ascii) :
  JSText.lower_char (JSText.upper_char c) = JSText.lower_char c.
Proof.
  destruct c as [b0 b1 b2 b3 b4 b5 b6 b7].
  destruct b0, b1, b2, b3, b4, b5, b6, b7; reflexivity.
Qed.

Lemma upper_char_idempotent (c : ascii) :
  JSText.upper_char (JSText.upper_char c) = JSText.upper_char c.
Proof.
  destruct c as [b0 b1 b2 b3 b4 b5 b6 b7].
  destruct b0, b1, b2, b3, b4, b5, b6, b7; reflexivity.
Qed.

Lemma upper_char_lower_char (c : ascii) :
  JSText.upper_char (JSText.lower_char c) = JSText.upper_char c.
Proof.
  destruct c as [b0 b1 b2 b3 b4 b5 b6 b7].
  destruct b0, b1, b2, b3, b4, b5, b6, b7; reflexivity.
Qed.

Lemma map_chars_compose (f g h : ascii -> ascii) (s : string) :
  (forall c, f (g c) = h c) ->
  JSText.map_chars f (JSText.map_chars g s) = JSText.map_chars h s.
Proof.
  intros Hfg. induction s as [|c s IH]; cbn; [reflexivity|].
  now rewrite Hfg, IH.
Qed.

Lemma find_none_iff {A} (f : A -> bool) (l : list A) :
  find f l = None <-> forall x, In x l -> f x = false.
Proof.
  split; [apply find_none|].
  intros Hall. destruct (find f l) as [x|] eqn:Hfind; [|reflexivity].
  apply find_some in Hfind as [Hin Hfx].
  rewrite (Hall x Hin) in Hfx. discriminate.
Qed.

(** X17. [getProtocolByAddress] does not look at letter case; what it
    finds is a registered protocol with the address asked for, letter
    case apart; every registered protocol is found under its own address;
    and the answer is [null] exactly when no registered address matches. *)
Theorem getProtocolByAddress_lookup :
  (forall a,
      Config.getProtocolByAddress (JSText.toLowerCase a)
      = Config.getProtocolByAddress a
      /\ Config.getProtocolByAddress (JSText.toUpperCase a)
         = Config.getProtocolByAddress a)
  /\ (forall a p,
         Config.getProtocolByAddress a = Some p ->
         In p (map snd Config.PROTOCOLS)
         /\ JSText.toLowerCase (Config.address p) = JSText.toLowerCase a)
  /\ (forall p,
         In p (map snd Config.PROTOCOLS) ->
         Config.getProtocolByAddress (Config.address p) = Some p)
  /\ (forall a,
         Config.getProtocolByAddress a = None
         <-> forall p, In p (map snd Config.PROTOCOLS) ->
                       JSText.toLowerCase (Config.address p)
                       <> JSText.toLowerCase a).
Proof.
  split; [|split; [|split]].
  - intros a. unfold Config.getProtocolByAddress, JSText.toLowerCase,
      JSText.toUpperCase.
    rewrite (map_chars_compose _ _ _ a lower_char_idempotent).
    rewrite (map_chars_compose _ _ _ a lower_char_upper_char).
    split; reflexivity.
  - intros a p Hfind. unfold Config.getProtocolByAddress in Hfind.
    apply find_some in Hfind as [Hin Heq].
    apply String.eqb_eq in Heq. split; assumption.
  - intros p Hin. cbn in Hin.
    repeat (destruct Hin as [<- | Hin]; [vm_compute; reflexivity|]).
    contradiction.
  - intros a. unfold Config.getProtocolByAddress.
    rewrite find_none_iff. split; intros H p Hin.
    + apply String.eqb_neq. now apply H.
    + apply String.eqb_neq. now apply H.
Qed.

Lemma getProtocolByAddress_lookup_witness :
  Forall (fun p =>
            Config.getProtocolByAddress
              (JSText.toLowerCase (Config.address p)) = Some p)
         (map snd Config.PROTOCOLS)
  /\ Config.getProtocolByAddress "0x0000000000000000000000000000000000000000"
     = None.
Proof.
  split.
  - apply Forall_forall. intros p Hin.
    rewrite (proj1 (proj1 getProtocolByAddress_lookup (Config.address p))).
    apply (proj1 (proj2 (proj2 getProtocolByAddress_lookup))). exact Hin.
  - apply (proj2 (proj2 (proj2 getProtocolByAddress_lookup))).
    intros p Hin. cbn in Hin.
    repeat (destruct Hin as [<- | Hin]; [discriminate|]).
    contradiction.
Defined.

(** X18. [getTokenBySymbol] does not look at letter case; every token of
    the table is found under its own symbol, [cbETH] included although
    its key is written [CBETH]; and a token that is found has the symbol
    asked for, letter case apart. *)
Theorem getTokenBySymbol_lookup :
  (forall s,
      Config.getTokenBySymbol (JSText.toLowerCase s)
      = Config.getTokenBySymbol s
      /\ Config.getTokenBySymbol (JSText.toUpperCase s)
         = Config.getTokenBySymbol s)
  /\ (forall key t,
         In (key, t) Config.TOKENS ->
         Config.getTokenBySymbol (Config.symbol t) = Some t)
  /\ (forall s t,
         Config.getTokenBySymbol s = Some t ->
         JSText.toUpperCase (Config.symbol t) = JSText.toUpperCase s).
Proof.
  split; [|split].
  - intros s. unfold Config.getTokenBySymbol, JSText.toLowerCase,
      JSText.toUpperCase.
    rewrite (map_chars_compose _ _ _ s upper_char_lower_char).
    rewrite (map_chars_compose _ _ _ s upper_char_idempotent).
    split; reflexivity.
  - intros key t Hin. cbn in Hin.
    repeat (destruct Hin as [[= <- <-] | Hin]; [vm_compute; reflexivity|]).
    contradiction.
  - intros s t Hfound.
    unfold Config.getTokenBySymbol, Config.lookup_token in Hfound.
    destruct (find _ Config.TOKENS) as [[key t']|] eqn:Hfind;
      [|discriminate].
    cbn in Hfound. injection Hfound as ->.
    apply find_some in Hfind as [Hin Hkey]. cbn [fst] in Hkey.
    apply String.eqb_eq in Hkey. rewrite <- Hkey.
    cbn in Hin.
    repeat (destruct Hin as [[= <- <-] | Hin]; [reflexivity|]).
    contradiction.
Qed.

Lemma getTokenBySymbol_lookup_witness :
  Forall (fun kv =>
            Config.getTokenBySymbol
              (JSText.toLowerCase (Config.symbol (snd kv))) = Some (snd kv)
            /\ JSText.toUpperCase (Config.symbol (snd kv))
               = JSText.toUpperCase
                   (JSText.toLowerCase (Config.symbol (snd kv))))
         Config.TOKENS.
Proof.
  apply Forall_forall. intros [key t] Hin. cbn [snd].
  assert (Hfound : Config.getTokenBySymbol
                     (JSText.toLowerCase (Config.symbol t)) = Some t).
  { rewrite (proj1 (proj1 getTokenBySymbol_lookup (Config.symbol t))).
    apply (proj1 (proj2 getTokenBySymbol_lookup) key). exact Hin. }
  split; [exact Hfound|].
  apply (proj2 (proj2 getTokenBySymbol_lookup)). exact Hfound.
Defined.

(** ** Where the calls go *)

Lemma last_destination_record (to value data : string) (w : World) :
  last_destination (record_call (SendTransaction to value data) w) = Some to.
Proof.
  unfold last_destination, record_call; cbn [calls].
  rewrite last_last. reflexivity.
Qed.

(** X19. On an integrator made by [createDeFiIntegrator], the two swaps,
    the two liquidity operations, the supply and the borrow send their
    call to an address of [BASE_PROTOCOLS]; a stake and a claim send
    theirs to the pool they are given, whatever it is.  The Aerodrome
    router they use is not an address the configuration module knows. *)
Theorem destinations_of_operations (sdk : BaseSDK) (w : World) :
  (forall params,
      exists d,
        last_destination
          (snd (swapExactInputSingle (createDeFiIntegrator sdk) params w))
        = Some d
        /\ In d (map address BASE_PROTOCOLS))
  /\ (forall amountIn amountOutMin routes to deadline,
      exists d,
        last_destination
          (snd (swapOnAerodrome (createDeFiIntegrator sdk) amountIn
                                amountOutMin routes to deadline w))
        = Some d
        /\ In d (map address BASE_PROTOCOLS))
  /\ (forall params,
      exists d,
        last_destination
          (snd (addLiquidity (createDeFiIntegrator sdk) params w))
        = Some d
        /\ In d (map address BASE_PROTOCOLS))
  /\ (forall tokenId liquidity min0 min1 deadline,
      exists d,
        last_destination
          (snd (removeLiquidity (createDeFiIntegrator sdk) tokenId liquidity
                                min0 min1 deadline w))
        = Some d
        /\ In d (map address BASE_PROTOCOLS))
  /\ (forall asset amount,
      exists d,
        last_destination
          (snd (supplyToCompound (createDeFiIntegrator sdk) asset amount w))
        = Some d
        /\ In d (map address BASE_PROTOCOLS))
  /\ (forall asset amount,
      exists d,
        last_destination
          (snd (borrowFromCompound (createDeFiIntegrator sdk) asset amount
                                   w))
        = Some d
        /\ In d (map address BASE_PROTOCOLS))
  /\ (forall pool amount,
      last_destination
        (snd (stakeLPTokens (createDeFiIntegrator sdk) pool amount w))
      = Some pool)
  /\ (forall pool,
      last_destination (snd (claimRewards (createDeFiIntegrator sdk) pool w))
      = Some pool)
  /\ Config.getProtocolByAddress (aerodromeRouter (createDeFiIntegrator sdk))
     = None.
Proof.
  run_operation; rewrite ?last_destination_record;
    try reflexivity;
    eexists; (split; [reflexivity|]); cbn; tauto.
Qed.

(** ** Balances that cannot be read *)

Lemma balance_of_lookup (table : string -> string -> Thrown + string)
  (user p : string) (w : World) :
  balance_of (lookup_of table) user p w
  = (match table user p with
     | inl e => inl e
     | inr b => inr {| protocol := p; value := b |}
     end, w).
Proof.
  unfold balance_of, lookup_of, await, resolve.
  destruct (table user p); reflexivity.
Qed.

Lemma Promise_all_lookup (table : string -> string -> Thrown + string)
  (user : string) (protocols : list string) (w : World) :
  snd (Promise_all (map (balance_of (lookup_of table) user) protocols) w) = w
  /\ (forall e,
         fst (Promise_all (map (balance_of (lookup_of table) user) protocols)
                          w) = inl e ->
         exists p, In p protocols /\ table user p = inl e)
  /\ ((exists p e, In p protocols /\ table user p = inl e) ->
      exists e,
        fst (Promise_all (map (balance_of (lookup_of table) user) protocols)
                         w) = inl e).
Proof.
  induction protocols as [|p ps IH]; cbn [map Promise_all].
  - unfold resolve. cbn. repeat split.
    + discriminate.
    + intros (p & e & [] & _).
  - destruct IH as (Hw & Hfrom & Hto).
    rewrite !balance_of_lookup.
    destruct (table user p) as [e | b] eqn:Hp.
    + cbn [fst snd]. rewrite Hw. repeat split.
      * intros e' [= <-]. exists p. split; [now left|exact Hp].
      * intros _. now exists e.
    + destruct (Promise_all (map (balance_of (lookup_of table) user) ps) w)
        as [[e | l] w'] eqn:Hrest; cbn [fst snd] in *.
      * repeat split; [exact Hw| |].
        -- intros e' [= <-]. destruct (Hfrom e eq_refl) as (q & Hq & He).
           exists q. split; [now right|exact He].
        -- intros _. now exists e.
      * repeat split; [exact Hw|discriminate|].
        intros (q & e & [<- | Hq] & He); [congruence|].
        destruct Hto as (e' & He'); [now exists q, e|discriminate].
Qed.

(** X20. With balances read from a table, [getPortfolioBalance] rejects
    exactly when the balance of one of the protocols asked for cannot be
    read, and then with the rejection of one of them: there is no partial
    snapshot, and no entry is left out to make one. *)
Theorem getPortfolioBalance_rejects
  (table : string -> string -> Thrown + string) (user : string)
  (protocols : list string) (w : World) :
  (forall e,
      fst (getPortfolioBalance (lookup_of table) user protocols w) = inl e ->
      exists p, In p protocols /\ table user p = inl e)
  /\ ((exists p e, In p protocols /\ table user p = inl e) ->
      exists e,
        fst (getPortfolioBalance (lookup_of table) user protocols w) = inl e)
  /\ (forall snapshot,
         fst (getPortfolioBalance (lookup_of table) user protocols w)
         = inr snapshot ->
         map (fun b => inr (balance_value b) : Thrown + string)
             (balance_breakdown snapshot)
         = map (table user) protocols).
Proof.
  destruct (Promise_all_lookup table user protocols w) as (_ & Hfrom & Hto).
  rewrite getPortfolioBalance_run.
  destruct (Promise_all (map (balance_of (lookup_of table) user) protocols) w)
    as [[e | balances] w'] eqn:Hall; cbn [fst] in *.
  - repeat split; [|intros _; now exists e|discriminate].
    intros e' [= <-]. now apply Hfrom.
  - repeat split; [discriminate| |].
    { intros Hsome. destruct (Hto Hsome) as (e & He). discriminate. }
    intros snapshot [= <-]. cbn [balance_breakdown].
    rewrite map_map. cbn [balance_value].
    clear Hfrom Hto. revert w w' balances Hall.
    induction protocols as [|p ps IH]; intros w w' balances Hall;
      cbn [map Promise_all] in Hall.
    + unfold resolve in Hall. injection Hall as <- _. reflexivity.
    + rewrite balance_of_lookup in Hall.
      destruct (table user p) as [e | b] eqn:Hp; [discriminate|].
      destruct (Promise_all (map (balance_of (lookup_of table) user) ps) w)
        as [[e | l] w''] eqn:Hrest; [discriminate|].
      injection Hall as <- _. cbn [map value].
      rewrite (IH w w'' l Hrest), Hp. reflexivity.
Qed.

Lemma getPortfolioBalance_rejects_witness :
  exists e,
    fst (getPortfolioBalance
           (lookup_of (fun _ protocol =>
                         if (protocol =? "Aerodrome")%string
                         then inl (ProviderError "Network error")
                         else inr "5000000000000000000"))
           "0x1234567890123456789012345678901234567890"
           ["Uniswap V3"; "Aerodrome"] (fresh_world healthy_network))
    = inl e.
Proof.
  apply (proj1 (proj2 (getPortfolioBalance_rejects _ _ _ _))).
  exists "Aerodrome", (ProviderError "Network error").
  split; [cbn; tauto|reflexivity].
Defined.

(** ** Amounts that are no amounts *)

(** X21. An amount that does not read as a number is not refused: it is
    written into the payload as the three letters [NaN] behind 61 zeros.
    The empty string is such an amount, and so is every string that
    starts with a letter. *)
Theorem unreadable_amount_encoded (amount : string) :
  JS.parseInt amount = JS.NaN ->
  word (hex_of_amount amount)
  = "0000000000000000000000000000000000000000000000000000000000000NaN"
  /\ (forall pool,
         encodeStakeData pool amount
         = "0xa694fc3a"
           ++ "0000000000000000000000000000000000000000000000000000000000000NaN")
  /\ JS.parseInt EmptyString = JS.NaN
  /\ (forall c rest,
         JS.digit_value c <> None -> JSText.isDecimalDigit c = false ->
         JS.parseInt (String c rest) = JS.NaN).
Proof.
  intros Hnan.
  assert (Hword : word (hex_of_amount amount)
    = "0000000000000000000000000000000000000000000000000000000000000NaN").
  { unfold hex_of_amount. rewrite Hnan. reflexivity. }
  split; [exact Hword|]. split; [|split].
  - intros pool. unfold encodeStakeData. now rewrite Hword.
  - reflexivity.
  - intros c rest Hletter Hdec.
    destruct c as [b0 b1 b2 b3 b4 b5 b6 b7].
    destruct b0, b1, b2, b3, b4, b5, b6, b7;
      try discriminate Hdec;
      try (exfalso; apply Hletter; reflexivity);
      reflexivity.
Qed.

Lemma unreadable_amount_encoded_witness :
  word (hex_of_amount "abc")
  = "0000000000000000000000000000000000000000000000000000000000000NaN"
  /\ JS.parseInt "wei" = JS.NaN.
Proof.
  split.
  - apply (proj1 (unreadable_amount_encoded "abc" eq_refl)).
  - apply (proj2 (proj2 (proj2 (unreadable_amount_encoded "abc" eq_refl)))).
    + discriminate.
    + reflexivity.
Defined.

Lemma round_positive_integer (z : Z) :
  0 < z < 2 ^ 53 -> JS.round_positive z 1 = Some (inject_Z z).
Proof.
  intros Hz. pose proof (round_double_integer z ltac:(lia)) as Hround.
  unfold JS.round_double in Hround. cbn [Qnum Qden inject_Z] in Hround.
  destruct (z =? 0) eqn:Hz0; [apply Z.eqb_eq in Hz0; lia|].
  destruct (z <? 0) eqn:Hneg; [apply Z.ltb_lt in Hneg; lia|].
  rewrite Z.abs_eq in Hround by lia.
  destruct (JS.round_positive z 1) as [v|]; [|discriminate].
  unfold JS.ofZ in Hround. injection Hround as ->. reflexivity.
Qed.

Lemma parseInt_negative (c : ascii) (r : string) :
  JSText.isDecimalDigit c = true ->
  match r with
  | String c' _ => c' <> "x"%char /\ c' <> "X"%char
  | EmptyString => True
  end ->
  JS.parseInt (String "-" (String c r))
  = match JS.read_digits 10 (String c r) 0 O with
    | (z, S _, _) => JS.round_double (inject_Z (- z))
    | (_, O, _) => JS.NaN
    end.
Proof.
  intros Hdec Hsecond.
  destruct c as [b0 b1 b2 b3 b4 b5 b6 b7].
  destruct b0, b1, b2, b3, b4, b5, b6, b7; try discriminate Hdec;
    try reflexivity.
  destruct r as [|c' r']; [reflexivity|].
  destruct Hsecond as [Hx HX].
  destruct c' as [b0 b1 b2 b3 b4 b5 b6 b7].
  destruct b0, b1, b2, b3, b4, b5, b6, b7;
    try (exfalso; apply Hx; reflexivity);
    try (exfalso; apply HX; reflexivity);
    reflexivity.
Qed.

(** X22. A negative amount is not refused either: below 2^53 in absolute
    value it is written with its minus sign in front of its hexadecimal
    digits, so that the word of the payload holds a character that is no
    hexadecimal digit. *)
Theorem negative_amount_encoded (z : Z) :
  0 < z < 2 ^ 53 ->
  JS.parseInt ("-" ++ JS.integer_digits 10 z) = JS.ofZ (- z)
  /\ hex_of_amount ("-" ++ JS.integer_digits 10 z)
     = "-" ++ JS.integer_digits 16 z
  /\ JSText.all_chars JSText.isHexDigit
       (hex_of_amount ("-" ++ JS.integer_digits 10 z)) = false.
Proof.
  intros Hz.
  assert (Hparse : JS.parseInt ("-" ++ JS.integer_digits 10 z)
                   = JS.ofZ (- z)).
  { destruct (read_integer_digits z ltac:(lia)) as (k & Hread).
    pose proof (digits_loop_decimal (S (Z.to_nat (Z.log2 z))) z EmptyString
                  ltac:(lia) eq_refl) as Hall.
    fold (JS.integer_digits 10 z) in Hall.
    destruct (JS.integer_digits 10 z) as [|c r] eqn:Hdigits;
      [discriminate Hread|].
    cbn [JSText.all_chars] in Hall.
    apply andb_true_iff in Hall as [Hc Hr].
    cbn [append]. rewrite parseInt_negative.
    - rewrite Hread. unfold JS.round_double.
      cbn [Qnum Qden inject_Z].
      destruct (- z =? 0) eqn:Hz0; [apply Z.eqb_eq in Hz0; lia|].
      destruct (- z <? 0) eqn:Hneg; [|apply Z.ltb_ge in Hneg; lia].
      replace (Z.abs (- z)) with z by lia.
      rewrite (round_positive_integer z Hz). reflexivity.
    - exact Hc.
    - destruct r as [|c' r']; [exact I|].
      cbn [JSText.all_chars] in Hr.
      apply andb_true_iff in Hr as [Hc' _].
      apply not_x_of_decimal. exact Hc'. }
  assert (Hhex : hex_of_amount ("-" ++ JS.integer_digits 10 z)
                 = "-" ++ JS.integer_digits 16 z).
  { unfold hex_of_amount. rewrite Hparse.
    unfold JS.toString_radix, JS.ofZ, JS.sign_prefix.
    cbn [Qnum inject_Z].
    destruct (- z <? 0) eqn:Hneg; [|apply Z.ltb_ge in Hneg; lia].
    assert (Hfloor : Qfloor (Qabs (inject_Z (- z))) = z).
    { unfold Qabs, Qfloor, inject_Z.
      replace (Z.abs (- z)) with z by lia. apply Z.div_1_r. }
    rewrite Hfloor.
    assert (Hfrac : Qeq_bool (Qred (Qabs (inject_Z (- z)) - inject_Z z)) 0
                    = true).
    { apply Qeq_bool_iff. rewrite Qred_correct.
      unfold Qabs, inject_Z, Qminus, Qplus, Qopp, Qeq. cbn.
      replace (Z.abs (- z)) with z by lia. lia. }
    rewrite Hfrac. rewrite append_empty_r. reflexivity. }
  split; [exact Hparse|]. split; [exact Hhex|].
  rewrite Hhex. reflexivity.
Qed.

Lemma negative_amount_encoded_witness :
  hex_of_amount ("-" ++ JS.integer_digits 10 255) = "-" ++ "ff".
Proof.
  assert (Hrange : 0 < 255 < 2 ^ 53).
  { split; [lia|]. apply Z.ltb_lt. vm_compute. reflexivity. }
  exact (proj1 (proj2 (negative_amount_encoded 255 Hrange))).
Defined.

(** * The total of a snapshot and the sum of its values *)

(** ** Writing an integer in decimal *)










(** ** The decimal writing of a whole double *)







(** ** C9: totals and sums *)









